(** * Yolov8_ros: the dual-model detection node [scripts/yolo_v8.py]

    A shallow embedding of the class [Yolo_Dect]: the two subscriber
    callbacks, [process_image], [handle_results] and [publish_image], run
    in a small state-and-exception monad over the node object, a store of
    numpy arrays and the trace of calls made to the outside (detector
    invocations, publications, display calls). *)

From Stdlib Require Import ZArith NArith QArith Qround Lia List Ascii String.
From Stdlib.Strings Require Import Byte.
From stdpp Require Import base gmap list strings pretty.

Local Open Scope string_scope.

(** ** Exceptions

    Python exceptions the node can meet. [ValueError] is numpy's (a
    [reshape] that does not fit), [cv2_error] is any failure reported by
    an OpenCV call, [KeyError] and [IndexError] come from the lookups of
    [handle_results], [AttributeError] from reading [self.color_image]
    before any frame was stored, [SystemError] marks a name that refers
    to no stored array, [OverflowError] is what [np.int64] raises on a
    float beyond its range, and [ModelInferenceError] stands for whatever
    a detector call raises. [FileNotFoundError] and [RuntimeError] are
    what loading a model and moving it to a device can raise.
    [FusionError] is the wrapper the specification's error taxonomy
    names; no line of the node raises it. *)
Inductive Exn : Type :=
  | ValueError
  | cv2_error
  | KeyError
  | IndexError
  | AttributeError
  | SystemError
  | OverflowError
  | FileNotFoundError (path : string)
  | RuntimeError (reason : string)
  | ModelInferenceError (reason : string)
  | FusionError (cause : Exn).

(** ** numpy arrays of [uint8]

    Only three-dimensional arrays occur: [shape] is (rows, columns,
    channels) and [data] the samples in C order, so that sample
    [(y, x, c)] sits at index [(y * columns + x) * channels + c]. *)
Record ndarray : Type := mk_ndarray {
  shape : N * N * N;
  data : list byte
}.

Definition size_of (sh : N * N * N) : N :=
  let '(h, w, c) := sh in (h * w * c)%N.

(** An array whose buffer has as many samples as its shape announces. *)
Definition consistent (a : ndarray) : Prop :=
  N.of_nat (length (data a)) = size_of (shape a).

(** The largest array index of numpy, which is also the largest number
    of bytes a Python buffer holds. *)
Definition NPY_MAX_INTP : N := 2 ^ 63 - 1.

(** [np.frombuffer(buf, dtype=np.uint8).reshape(h, w, -1)]: the third
    dimension is inferred by numpy. It raises [ValueError] when the
    known dimensions multiply to zero (the unknown one cannot be
    inferred), when their product is beyond the index range (of a
    buffer as Python holds it, of at most [NPY_MAX_INTP] bytes), or
    when they do not divide the number of samples. *)
Definition reshape (buf : list byte) (h w : N) : Exn + ndarray :=
  let n := N.of_nat (length buf) in
  if (h * w =? 0)%N then inl ValueError
  else if (NPY_MAX_INTP <? h * w)%N && (n <=? NPY_MAX_INTP)%N then inl ValueError
  else if (n mod (h * w) =? 0)%N
       then inr {| shape := (h, w, (n / (h * w))%N); data := buf |}
       else inl ValueError.

(** Channel reorder of [cv2.COLOR_BGR2RGB] on a packed buffer with three
    samples per pixel: the first and third sample of every pixel are
    exchanged. *)
Fixpoint swap_rb3 (l : list byte) : list byte :=
  match l with
  | b :: g :: r :: rest => r :: g :: b :: swap_rb3 rest
  | _ => []
  end.

(** The same on four samples per pixel: the fourth one is dropped, the
    destination of [COLOR_BGR2RGB] always has three channels. *)
Fixpoint swap_rb4 (l : list byte) : list byte :=
  match l with
  | b :: g :: r :: _ :: rest => r :: g :: b :: swap_rb4 rest
  | _ => []
  end.

(** A gray sample becomes a pixel with that sample in each of its three
    channels. *)
Fixpoint gray_to_rgb (l : list byte) : list byte :=
  match l with
  | g :: rest => g :: g :: g :: gray_to_rgb rest
  | [] => []
  end.

(** [ndarray.copy()] and [np.array(a)]: a new array with the same shape
    and samples. *)
Definition np_copy (a : ndarray) : ndarray :=
  {| shape := shape a; data := data a |}.

(** ** Messages *)

Module std_msgs.
Record Header : Type := mk_Header {
  stamp : N;
  frame_id : string
}.
End std_msgs.

Module sensor_msgs.
(** [sensor_msgs/Image]; [height], [width] and [step] are [uint32]. *)
Record Image : Type := mk_Image {
  header : std_msgs.Header;
  height : N;
  width : N;
  encoding : string;
  is_bigendian : N;
  step : N;
  data : list byte
}.

Record CompressedImage : Type := mk_CompressedImage {
  c_header : std_msgs.Header;
  format : string;
  c_data : list byte
}.
End sensor_msgs.

Module yolov8_ros_msgs.
(** Modelled from the spec: the message definitions of the package
    [yolov8_ros_msgs] are not among the sources. A box carries what
    [handle_results] assigns and the specification lists for an entry of
    the detections message: the class label, the confidence and the four
    integer corners. *)
Record BoundingBox : Type := mk_BoundingBox {
  probability : Q;
  xmin : Z;
  ymin : Z;
  xmax : Z;
  ymax : Z;
  Class : string
}.

(** Modelled from the spec: the detections message, an ordered list of
    boxes under a header with time stamp and coordinate frame. *)
Record BoundingBoxes : Type := mk_BoundingBoxes {
  header : std_msgs.Header;
  image_header : std_msgs.Header;
  bounding_boxes : list BoundingBox
}.
End yolov8_ros_msgs.

Import yolov8_ros_msgs.

(** What can be handed to a publisher. *)
Inductive message : Type :=
  | ImageMsg (m : sensor_msgs.Image)
  | BoundingBoxesMsg (m : BoundingBoxes).

(** ** The detection library

    A finite Python float is a rational number, so box coordinates and
    confidences are in [Q]. *)
Module ultralytics.
(** One element of [results[0].boxes]: [xyxy[0]] is the corner pair
    (x1, y1, x2, y2), [cls] the class id, [conf] the confidence. *)
Record Box : Type := mk_Box {
  xyxy : Q * Q * Q * Q;
  cls : Z;
  conf : Q
}.

(** A [Results] object: the boxes found on one image and the class-name
    table of the model that produced them. *)
Record Results : Type := mk_Results {
  boxes : list Box;
  names : gmap Z string
}.

(** A loaded model: the weight file it came from, whether its layers
    were fused, the device it was moved to and its [conf] attribute. *)
Record YOLO : Type := mk_YOLO {
  weights : string;
  fused : bool;
  device : string;
  model_conf : option Q
}.
End ultralytics.

Import ultralytics.

(** ** The node object and the world around it *)

Inductive msg_type : Type := T_Image | T_CompressedImage.

Record Subscriber : Type := mk_Subscriber {
  sub_topic : string;
  sub_type : msg_type;
  sub_queue_size : N;
  sub_buff_size : N
}.

Record Publisher : Type := mk_Publisher {
  pub_name : string;
  pub_queue_size : N
}.

(** Arrays live in a store and are named by their location: two names
    for one location alias. *)
Definition loc : Type := positive.

(** The attributes of a [Yolo_Dect] instance. [color_image] names no
    array until the first frame arrives, and after [cv2.imdecode] gave
    [None]. *)
Record Yolo_Dect : Type := mk_Yolo_Dect {
  camera_frame : string;
  use_compressed : bool;
  visualize : bool;
  self_device : string;
  model1 : YOLO;
  model2 : YOLO;
  color_sub : Subscriber;
  position_pub : Publisher;
  image_pub : Publisher;
  color_image : option loc
}.

(** Calls the node makes to what it does not define (the detectors, the
    drawing and display functions of OpenCV, the publishers, the log),
    in the order they are made. A call is recorded when it is made,
    whether it then returns or raises. *)
Inductive event : Type :=
  | Predict (model : YOLO) (source : ndarray) (show : bool) (conf : Q)
  | Publish (pub : Publisher) (msg : message)
  | Rectangle (pt1 pt2 : Z * Z) (color : list byte) (thickness : Z)
  | PutText (text : string) (org : Z * Z) (fontFace : Z) (fontScale : Q)
      (color : list byte) (thickness : Z)
  | Imshow (title : string) (frame : ndarray)
  | WaitKey (delay : Z)
  | Logerr (e : Exn).

Record State : Type := mk_State {
  self : Yolo_Dect;
  heap : gmap loc ndarray;
  trace : list event;
  now : N
}.

Definition set_color_image (l : option loc) (s : State) : State :=
  let o := self s in
  {| self := {| camera_frame := camera_frame o;
                use_compressed := use_compressed o;
                visualize := visualize o;
                self_device := self_device o;
                model1 := model1 o;
                model2 := model2 o;
                color_sub := color_sub o;
                position_pub := position_pub o;
                image_pub := image_pub o;
                color_image := l |};
     heap := heap s; trace := trace s; now := now s |}.

Definition set_heap (h : gmap loc ndarray) (s : State) : State :=
  {| self := self s; heap := h; trace := trace s; now := now s |}.

Definition add_event (e : event) (s : State) : State :=
  {| self := self s; heap := heap s; trace := trace s ++ [e]; now := now s |}.

Definition set_now (t : N) (s : State) : State :=
  {| self := self s; heap := heap s; trace := trace s; now := t |}.

Definition add_events (evs : list event) (s : State) : State :=
  {| self := self s; heap := heap s; trace := trace s ++ evs; now := now s |}.

(** ** The monad: state with exceptions

    A computation returns a value or raises; the state it leaves behind
    is kept in both cases, as every write made before a Python exception
    stays made. *)
Definition M (A : Type) : Type := State -> (Exn + A) * State.

#[global] Instance M_ret : MRet M := fun A a s => (inr a, s).

#[global] Instance M_bind : MBind M := fun A B f m s =>
  match m s with
  | (inr a, s') => f a s'
  | (inl e, s') => (inl e, s')
  end.

Definition raise {A : Type} (e : Exn) : M A := fun s => (inl e, s).

Definition lift {A : Type} (r : Exn + A) : M A := fun s => (r, s).

(** A call that returns nothing and may raise. *)
Definition raise_if (o : option Exn) : M unit :=
  match o with
  | Some e => raise e
  | None => mret tt
  end.

Definition get_self : M Yolo_Dect := fun s => (inr (self s), s).

Definition emit (e : event) : M unit := fun s => (inr tt, add_event e s).

(** A new array gets a location no stored array has. *)
Definition alloc (a : ndarray) : M loc := fun s =>
  let l := fresh (dom (heap s)) in
  (inr l, set_heap (<[l := a]> (heap s)) s).

(** Reading through a name. A name always refers to a stored array in
    Python; [SystemError] marks the states where the store has none. *)
Definition load (l : loc) : M ndarray := fun s =>
  match heap s !! l with
  | Some a => (inr a, s)
  | None => (inl SystemError, s)
  end.

(** Writing in place into the array a name refers to. *)
Definition store (l : loc) (a : ndarray) : M unit := fun s =>
  match heap s !! l with
  | Some _ => (inr tt, set_heap (<[l := a]> (heap s)) s)
  | None => (inl SystemError, s)
  end.

(** [self.color_image = ...] *)
Definition assign_color_image (l : option loc) : M unit := fun s =>
  (inr tt, set_color_image l s).

(** [self.color_image], an [AttributeError] when it names no array. *)
Definition read_color_image : M loc :=
  o ← get_self;
  match color_image o with
  | Some l => mret l
  | None => raise AttributeError
  end.

(** [rospy.Time.now()] *)
Definition Time_now : M N := fun s => (inr (now s), s).

(** [for x in l: body(x)] *)
Fixpoint for_each {A : Type} (body : A -> M unit) (l : list A) : M unit :=
  match l with
  | [] => mret tt
  | x :: rest => body x ;; for_each body rest
  end.

(** ** What the node calls and does not define

    The detectors, the image decompressor, the rasterisers behind
    [cv2.rectangle] and [cv2.putText] and Python's float formatting are
    outside the node. A detector call is a function of the model, the
    samples of the frame and the keyword arguments; a rasteriser says
    which pixels (x, y) a shape covers. [imshow] and [waitKey] give the
    exception a display call raises, if it raises (no display, say);
    [YOLO_error], [fuse_error] and [to_error] do so for loading a weight
    file, fusing a model and moving it to a device. Beyond 512 samples
    in the last dimension OpenCV's binding no longer reads that
    dimension as channels: what the colour conversion then gives is left
    to [cvtColor_wide]. *)
Class Env : Type := mk_Env {
  predict : YOLO -> ndarray -> bool -> Q -> Exn + list Results;
  imdecode : list byte -> option ndarray;
  rectangle_cover : Z * Z -> Z * Z -> Z -> Z -> Z -> bool;
  putText_cover : string -> Z * Z -> Z -> Q -> Z -> Z -> Z -> bool;
  format_2f : Q -> string;
  imshow : string -> ndarray -> option Exn;
  waitKey : Z -> option Exn;
  YOLO_error : string -> option Exn;
  fuse_error : YOLO -> option Exn;
  to_error : string -> YOLO -> option Exn;
  cvtColor_wide : ndarray -> Exn + ndarray;
  (** what the decompressor returns is a numpy array *)
  imdecode_consistent : forall buf a, imdecode buf = Some a -> consistent a;
  (** and so is what the conversion returns, with three channels *)
  cvtColor_wide_consistent : forall src a,
    cvtColor_wide src = inr a ->
    shape a = ((shape src).1.1, (shape src).1.2, 3%N) /\ consistent a
}.

(** ** Numbers *)

Definition INT64_MIN : Z := - 2 ^ 63.
Definition INT64_MAX : Z := 2 ^ 63 - 1.

Definition in_int64 (z : Z) : bool :=
  (INT64_MIN <=? z)%Z && (z <=? INT64_MAX)%Z.

(** The integer part of a rational, toward zero. *)
Definition Qtruncate (x : Q) : Z := Z.quot (Qnum x) (Zpos (Qden x)).

(** [np.int64(x)] on a Python float: the fraction is dropped, and a
    value whose integer part an [int64] cannot hold raises
    [OverflowError]. *)
Definition np_int64 (x : Q) : Exn + Z :=
  if in_int64 (Qtruncate x) then inr (Qtruncate x) else inl OverflowError.

(** Arithmetic on [np.int64] scalars wraps around. *)
Definition wrap_int64 (z : Z) : Z :=
  ((z - INT64_MIN) mod 2 ^ 64 + INT64_MIN)%Z.

(** OpenCV reads a point into two C [int]s and refuses what does not
    fit. *)
Definition fits_int (z : Z) : bool :=
  (- 2 ^ 31 <=? z)%Z && (z <? 2 ^ 31)%Z.

Definition fits_point (p : Z * Z) : bool :=
  fits_int (fst p) && fits_int (snd p).

(** ** Drawing

    Both drawing calls use the default line type, which writes the plain
    colour on every covered pixel, in place. [paint] does that on the
    samples: sample [i] belongs to pixel [i / channels], which is at
    column [p mod columns] of row [p / columns]. *)
Definition paint (cover : Z -> Z -> bool) (color : list byte) (img : ndarray) : ndarray :=
  let '(h, w, c) := shape img in
  {| shape := shape img;
     data := imap (fun i b =>
                     let p := (N.of_nat i / c)%N in
                     if cover (Z.of_N (p mod w)) (Z.of_N (p / w))
                     then nth (N.to_nat (N.of_nat i mod c)) color "000"%byte
                     else b) (data img) |}.

Section WithEnv.
Context {E : Env}.

(** The most channels an OpenCV matrix can have. *)
Definition CV_CN_MAX : N := 512.

(** [cv2.cvtColor(src, cv2.COLOR_BGR2RGB)]. OpenCV asserts that the
    source is not empty. A source of three or four channels has the
    first and third sample of every pixel exchanged (and the fourth
    dropped), a source of one channel is taken as gray; any other
    number of channels up to [CV_CN_MAX] is refused. The result is a new
    three-channel array. *)
Definition cvtColor_BGR2RGB (src : ndarray) : Exn + ndarray :=
  let '(h, w, c) := shape src in
  if (size_of (shape src) =? 0)%N then inl cv2_error
  else if (CV_CN_MAX <? c)%N then cvtColor_wide src
  else if (c =? 1)%N then inr {| shape := (h, w, 3%N); data := gray_to_rgb (data src) |}
  else if (c =? 3)%N then inr {| shape := (h, w, 3%N); data := swap_rb3 (data src) |}
  else if (c =? 4)%N then inr {| shape := (h, w, 3%N); data := swap_rb4 (data src) |}
  else inl cv2_error.

(** [cv2.rectangle(img, pt1, pt2, color, thickness)] *)
Definition cv2_rectangle (img : ndarray) (pt1 pt2 : Z * Z)
    (color : list byte) (thickness : Z) : Exn + ndarray :=
  if fits_point pt1 && fits_point pt2
  then inr (paint (rectangle_cover pt1 pt2 thickness) color img)
  else inl cv2_error.

(** [cv2.putText(img, text, org, fontFace, fontScale, color, thickness)] *)
Definition cv2_putText (img : ndarray) (text : string) (org : Z * Z)
    (fontFace : Z) (fontScale : Q) (color : list byte) (thickness : Z)
    : Exn + ndarray :=
  if fits_point org
  then inr (paint (putText_cover text org fontFace fontScale thickness) color img)
  else inl cv2_error.

Definition FONT_HERSHEY_SIMPLEX : Z := 0.

(** The colour tuple (0, 255, 0). *)
Definition green : list byte := ["000"; "255"; "000"]%byte.

(** ** [handle_results] *)

(** Lines 82 to 88: the [BoundingBox] built for one element of
    [results[0].boxes]. The four coordinates are converted first, in the
    order of the lines; then the class name is looked up in the table of
    the same [Results] object. *)
Definition make_BoundingBox (r0 : Results) (result : Box) : Exn + BoundingBox :=
  let '(x1, y1, x2, y2) := xyxy result in
  match np_int64 x1 with
  | inl e => inl e
  | inr xmin_ =>
  match np_int64 y1 with
  | inl e => inl e
  | inr ymin_ =>
  match np_int64 x2 with
  | inl e => inl e
  | inr xmax_ =>
  match np_int64 y2 with
  | inl e => inl e
  | inr ymax_ =>
  match names r0 !! cls result with
  | Some name =>
      inr {| xmin := xmin_;
             ymin := ymin_;
             xmax := xmax_;
             ymax := ymax_;
             Class := name;
             probability := conf result |}
  | None => inl KeyError
  end end end end end.

(** The f-string of line 92. *)
Definition label (boundingBox : BoundingBox) : string :=
  Class boundingBox ++ ": " ++ format_2f (probability boundingBox).

(** [results[0]] *)
Definition first_result (results : list Results) : Exn + Results :=
  match results with
  | r0 :: _ => inr r0
  | [] => inl IndexError
  end.

(** The two drawing calls of lines 91 and 92 for a box. *)
Definition rectangle_call (boundingBox : BoundingBox) : event :=
  Rectangle (xmin boundingBox, ymin boundingBox)
    (xmax boundingBox, ymax boundingBox) green 2.

Definition putText_call (boundingBox : BoundingBox) : event :=
  PutText (label boundingBox)
    (xmin boundingBox, wrap_int64 (ymin boundingBox - 10))
    FONT_HERSHEY_SIMPLEX (6 # 10) green 2.

(** The body of the loop: build the box, then draw the rectangle and
    the text into the array [frame] names. *)
Definition handle_result (r0 : Results) (frame : loc) (result : Box) : M unit :=
  boundingBox ← lift (make_BoundingBox r0 result);
  img ← load frame;
  emit (rectangle_call boundingBox);;
  img1 ← lift (cv2_rectangle img (xmin boundingBox, ymin boundingBox)
                 (xmax boundingBox, ymax boundingBox) green 2);
  store frame img1;;
  emit (putText_call boundingBox);;
  img2 ← lift (cv2_putText img1 (label boundingBox)
                 (xmin boundingBox, wrap_int64 (ymin boundingBox - 10))
                 FONT_HERSHEY_SIMPLEX (6 # 10) green 2);
  store frame img2.

Definition handle_results (results : list Results) (frame : loc) : M loc :=
  r0 ← lift (first_result results);
  for_each (handle_result r0 frame) (boxes r0);;
  mret frame.

(** ** [publish_image] *)
Definition publish_image (imgdata : loc) (height width : N) : M unit :=
  o ← get_self;
  t ← Time_now;
  a ← load imgdata;
  emit (Publish (image_pub o)
          (ImageMsg
             {| sensor_msgs.header :=
                  {| std_msgs.stamp := t; std_msgs.frame_id := camera_frame o |};
                sensor_msgs.height := height;
                sensor_msgs.width := width;
                sensor_msgs.encoding := "rgb8";
                sensor_msgs.is_bigendian := 0%N;
                sensor_msgs.data := data (np_copy a);
                sensor_msgs.step := (width * 3)%N |})).

(** ** [process_image] *)

(** [model(source, show=show, conf=conf)] *)
Definition call_model (model : YOLO) (source : loc) (show : bool) (c : Q)
    : M (list Results) :=
  a ← load source;
  emit (Predict model a show c);;
  lift (predict model a show c).

Definition process_image : M unit :=
  o ← get_self;
  img ← read_color_image;
  results1 ← call_model (model1 o) img false (3 # 10);
  img ← read_color_image;
  results2 ← call_model (model2 o) img false (3 # 10);
  img ← read_color_image;
  a ← load img;
  combined_frame ← alloc (np_copy a);
  combined_frame ← handle_results results1 combined_frame;
  combined_frame ← handle_results results2 combined_frame;
  img ← read_color_image;
  a ← load img;
  publish_image combined_frame (shape a).1.1 (shape a).1.2;;
  if visualize o
  then (f ← load combined_frame;
        emit (Imshow "YOLOv8 Combined Detection" f);;
        raise_if (imshow "YOLOv8 Combined Detection" f);;
        emit (WaitKey 1);;
        raise_if (waitKey 1))
  else mret tt.

(** ** The subscriber callbacks *)
Definition image_callback (image : sensor_msgs.Image) : M unit :=
  a ← lift (reshape (sensor_msgs.data image)
              (sensor_msgs.height image) (sensor_msgs.width image));
  l ← alloc a;
  assign_color_image (Some l);;
  img ← read_color_image;
  a ← load img;
  b ← lift (cvtColor_BGR2RGB a);
  l ← alloc b;
  assign_color_image (Some l);;
  process_image.

(** [cv2.imdecode] refuses an empty buffer; for a buffer it cannot
    decode it returns [None], which is stored and which [cv2.cvtColor]
    then refuses. *)
Definition compressed_image_callback (image : sensor_msgs.CompressedImage) : M unit :=
  match sensor_msgs.c_data image with
  | [] => raise cv2_error
  | _ :: _ =>
  match imdecode (sensor_msgs.c_data image) with
  | Some a =>
      l ← alloc a;
      assign_color_image (Some l);;
      img ← read_color_image;
      a ← load img;
      b ← lift (cvtColor_BGR2RGB a);
      l ← alloc b;
      assign_color_image (Some l);;
      process_image
  | None =>
      assign_color_image None;;
      raise cv2_error
  end
  end.
End WithEnv.

(** ** [__init__]

    The parameter server as the node sees it: a value or nothing under
    each of the names it asks for. *)
Module Params.
Record t : Type := mk {
  weight_path : option string;
  image_topic : option string;
  pub_topic : option string;
  camera_frame : option string;
  use_compressed : option bool;
  conf : option Q;
  visualize : option bool;
  use_cpu : option bool
}.
End Params.

(** [rospy.get_param(name, default)] *)
Definition get_param {A : Type} (value : option A) (default_value : A) : A :=
  default default_value value.

Fixpoint ends_with_slash (s : string) : bool :=
  match s with
  | EmptyString => false
  | String c EmptyString => if Ascii.eqb c "/"%char then true else false
  | String _ rest => ends_with_slash rest
  end.

(** [os.path.join(a, b)] for a relative [b]. *)
Definition os_path_join (a b : string) : string :=
  match a with
  | EmptyString => b
  | _ => if ends_with_slash a then a ++ b else a ++ "/" ++ b
  end.

(** [YOLO(path)], [model.fuse()], [model.to(device)] and the attribute
    write [model.conf = conf]. *)
Definition YOLO_load (path : string) : YOLO :=
  {| weights := path; fused := false; device := "cpu"; model_conf := None |}.

Definition fuse (m : YOLO) : YOLO :=
  {| weights := weights m; fused := true; device := device m;
     model_conf := model_conf m |}.

Definition to (dev : string) (m : YOLO) : YOLO :=
  {| weights := weights m; fused := fused m; device := dev;
     model_conf := model_conf m |}.

Definition set_conf (c : Q) (m : YOLO) : YOLO :=
  {| weights := weights m; fused := fused m; device := device m;
     model_conf := Some c |}.

(** The node object [__init__] leaves behind when none of the library
    calls it makes raises. *)
Definition init (ps : Params.t) : Yolo_Dect :=
  let weight_path := get_param (Params.weight_path ps) "" in
  let image_topic := get_param (Params.image_topic ps) "/camera/color/image_raw" in
  let pub_topic := get_param (Params.pub_topic ps) "/yolov8/BoundingBoxes" in
  let camera_frame := get_param (Params.camera_frame ps) "" in
  let use_compressed := get_param (Params.use_compressed ps) false in
  let conf := get_param (Params.conf ps) (5 # 10) in
  let visualize := get_param (Params.visualize ps) true in
  let device := if get_param (Params.use_cpu ps) false then "cpu" else "cuda" in
  let model1 := YOLO_load (os_path_join weight_path "new_object_detect.pt") in
  let model2 := YOLO_load (os_path_join weight_path "yolov8m.pt") in
  let model1 := set_conf conf (to device (fuse model1)) in
  let model2 := set_conf conf (to device (fuse model2)) in
  {| camera_frame := camera_frame;
     use_compressed := use_compressed;
     visualize := visualize;
     self_device := device;
     model1 := model1;
     model2 := model2;
     color_sub :=
       {| sub_topic := image_topic;
          sub_type := if use_compressed then T_CompressedImage else T_Image;
          sub_queue_size := 1; sub_buff_size := 52428800 |};
     position_pub := {| pub_name := pub_topic; pub_queue_size := 1 |};
     image_pub := {| pub_name := "/yolov8/detection_image"; pub_queue_size := 1 |};
     color_image := None |}.

(** The state a node starts from: the object [__init__] built, an empty
    store, nothing emitted yet. *)
Definition initial_state (ps : Params.t) : State :=
  {| self := init ps; heap := ∅; trace := []; now := 0%N |}.

Section Construction.
Context {E : Env}.

(** [Yolo_Dect()]: lines 31 to 37 call into the detection library in
    this order (load both weight files, fuse both models, move both to
    the device), and the first call to raise ends the construction with
    its exception. The rospy calls around them (parameters,
    subscription, publishers) are those of a node with a master to talk
    to: they return. *)
Definition __init__ (ps : Params.t) : Exn + Yolo_Dect :=
  let weight_path := get_param (Params.weight_path ps) "" in
  let device := if get_param (Params.use_cpu ps) false then "cpu" else "cuda" in
  let path1 := os_path_join weight_path "new_object_detect.pt" in
  let path2 := os_path_join weight_path "yolov8m.pt" in
  match YOLO_error path1 with
  | Some e => inl e
  | None =>
  match YOLO_error path2 with
  | Some e => inl e
  | None =>
  match fuse_error (YOLO_load path1) with
  | Some e => inl e
  | None =>
  match fuse_error (YOLO_load path2) with
  | Some e => inl e
  | None =>
  match to_error device (fuse (YOLO_load path1)) with
  | Some e => inl e
  | None =>
  match to_error device (fuse (YOLO_load path2)) with
  | Some e => inl e
  | None => inr (init ps)
  end end end end end end.
End Construction.

(** ** The middleware's dispatch

    rospy runs a subscriber callback inside [try ... except Exception]:
    an exception that leaves the callback is logged ("bad callback") and
    the subscriber goes on with the next message. [spin] is the node
    between start and shutdown: every delivered message, with the time
    at which it is handled, is given to the callback in turn. *)
Inductive inbound : Type :=
  | Raw (image : sensor_msgs.Image)
  | Compressed (image : sensor_msgs.CompressedImage).

Definition invoke_callback {A : Type} (cb : A -> M unit) (msg : A) : M unit :=
  fun s =>
    match cb msg s with
    | (inl e, s') => (inr tt, add_event (Logerr e) s')
    | (inr _, s') => (inr tt, s')
    end.

Definition set_clock (t : N) : M unit := fun s => (inr tt, set_now t s).

Fixpoint spin {A : Type} (cb : A -> M unit) (arrivals : list (N * A)) : M unit :=
  match arrivals with
  | [] => mret tt
  | (t, msg) :: rest =>
      set_clock t;;
      invoke_callback cb msg;;
      spin cb rest
  end.

Section Dispatch.
Context {E : Env}.

(** The callback the subscription of [__init__] was made with handles
    the messages of its type. *)
Definition on_frame (msg : inbound) : M unit :=
  match msg with
  | Raw image => image_callback image
  | Compressed image => compressed_image_callback image
  end.
End Dispatch.

(** The events a computation adds to the trace of [s]. *)
Definition emitted {A : Type} (m : M A) (s : State) : list event :=
  drop (length (trace s)) (trace (m s).2).

Definition is_detections_message (e : event) : bool :=
  match e with
  | Publish _ (BoundingBoxesMsg _) => true
  | _ => false
  end.

Definition is_image_message (e : event) : bool :=
  match e with
  | Publish _ (ImageMsg _) => true
  | _ => false
  end.

Definition is_publication (e : event) : bool :=
  match e with
  | Publish _ _ => true
  | _ => false
  end.

Definition is_predict (e : event) : bool :=
  match e with
  | Predict _ _ _ _ => true
  | _ => false
  end.


(** ** The methods read as functions

    What a run of each method does to the frame and to the trace,
    written without the store: the lemmas below show that the methods
    compute exactly these. *)
Section Reading.
Context {E : Env}.

(** Lines 91 and 92 on the samples of the frame. *)
Definition draw (boundingBox : BoundingBox) (img : ndarray) : Exn + ndarray :=
  match cv2_rectangle img (xmin boundingBox, ymin boundingBox)
          (xmax boundingBox, ymax boundingBox) green 2 with
  | inr img1 =>
      cv2_putText img1 (label boundingBox)
        (xmin boundingBox, wrap_int64 (ymin boundingBox - 10))
        FONT_HERSHEY_SIMPLEX (6 # 10) green 2
  | inl e => inl e
  end.

(** The loop of [handle_results]: each box is built, then drawn. *)
Fixpoint draw_boxes (r0 : Results) (bs : list Box) (img : ndarray) : Exn + ndarray :=
  match bs with
  | [] => inr img
  | result :: rest =>
      match make_BoundingBox r0 result with
      | inr boundingBox =>
          match draw boundingBox img with
          | inr img' => draw_boxes r0 rest img'
          | inl e => inl e
          end
      | inl e => inl e
      end
  end.

Definition annotate (results : list Results) (img : ndarray) : Exn + ndarray :=
  match first_result results with
  | inr r0 => draw_boxes r0 (boxes r0) img
  | inl e => inl e
  end.

(** The [BoundingBox] objects one call of [handle_results] builds, in
    the order it builds them. *)
Fixpoint built (r0 : Results) (bs : list Box) : Exn + list BoundingBox :=
  match bs with
  | [] => inr []
  | result :: rest =>
      match make_BoundingBox r0 result with
      | inr boundingBox =>
          match built r0 rest with
          | inr l => inr (boundingBox :: l)
          | inl e => inl e
          end
      | inl e => inl e
      end
  end.

Definition built_boxes (results : list Results) : Exn + list BoundingBox :=
  match first_result results with
  | inr r0 => built r0 (boxes r0)
  | inl e => inl e
  end.

(** Drawing a sequence of boxes, first to last. *)
Fixpoint draw_all (l : list BoundingBox) (img : ndarray) : Exn + ndarray :=
  match l with
  | [] => inr img
  | boundingBox :: rest =>
      match draw boundingBox img with
      | inr img' => draw_all rest img'
      | inl e => inl e
      end
  end.

(** The drawing calls one box gives rise to: the rectangle, and the
    label when the rectangle was drawn. *)
Definition draw_events (boundingBox : BoundingBox) : list event :=
  rectangle_call boundingBox ::
  (if fits_point (xmin boundingBox, ymin boundingBox)
      && fits_point (xmax boundingBox, ymax boundingBox)
   then [putText_call boundingBox]
   else []).

(** The drawing calls of the loop of [handle_results], up to its end or
    to the box it fails on. *)
Fixpoint draw_boxes_events (r0 : Results) (bs : list Box) : list event :=
  match bs with
  | [] => []
  | result :: rest =>
      match make_BoundingBox r0 result with
      | inr boundingBox =>
          (draw_events boundingBox ++
           if fits_point (xmin boundingBox, ymin boundingBox)
              && fits_point (xmax boundingBox, ymax boundingBox)
              && fits_point (xmin boundingBox, wrap_int64 (ymin boundingBox - 10))
           then draw_boxes_events r0 rest
           else [])%list
      | inl _ => []
      end
  end.

Definition annotate_events (results : list Results) : list event :=
  match first_result results with
  | inr r0 => draw_boxes_events r0 (boxes r0)
  | inl _ => []
  end.

(** The drawing calls for a sequence of boxes that are all drawn. *)
Definition drawing_calls (l : list BoundingBox) : list event :=
  flat_map (fun boundingBox =>
              [rectangle_call boundingBox; putText_call boundingBox]) l.

(** The message [publish_image] hands to [image_pub]. *)
Definition image_message (o : Yolo_Dect) (t : N) (height width : N)
    (frame : ndarray) : event :=
  Publish (image_pub o)
    (ImageMsg
       {| sensor_msgs.header :=
            {| std_msgs.stamp := t; std_msgs.frame_id := camera_frame o |};
          sensor_msgs.height := height;
          sensor_msgs.width := width;
          sensor_msgs.encoding := "rgb8";
          sensor_msgs.is_bigendian := 0%N;
          sensor_msgs.data := data frame;
          sensor_msgs.step := (width * 3)%N |}).

(** Lines 76 to 78: how they end and what they emit. *)
Definition display (o : Yolo_Dect) (frame : ndarray) : (Exn + unit) * list event :=
  if visualize o
  then match imshow "YOLOv8 Combined Detection" frame with
       | Some e => (inl e, [Imshow "YOLOv8 Combined Detection" frame])
       | None =>
           match waitKey 1 with
           | Some e =>
               (inl e, [Imshow "YOLOv8 Combined Detection" frame; WaitKey 1])
           | None =>
               (inr tt, [Imshow "YOLOv8 Combined Detection" frame; WaitKey 1])
           end
       end
  else (inr tt, []).

(** One pass of [process_image] over the frame [a]: how it ends and
    what it emits. *)
Definition frame_outcome (o : Yolo_Dect) (t : N) (a : ndarray)
    : (Exn + unit) * list event :=
  let p1 := Predict (model1 o) a false (3 # 10) in
  let p2 := Predict (model2 o) a false (3 # 10) in
  match predict (model1 o) a false (3 # 10) with
  | inl e => (inl e, [p1])
  | inr results1 =>
      match predict (model2 o) a false (3 # 10) with
      | inl e => (inl e, [p1; p2])
      | inr results2 =>
          match annotate results1 (np_copy a) with
          | inl e => (inl e, ([p1; p2] ++ annotate_events results1)%list)
          | inr f1 =>
              match annotate results2 f1 with
              | inl e =>
                  (inl e,
                   ([p1; p2] ++ annotate_events results1
                      ++ annotate_events results2)%list)
              | inr f2 =>
                  ((display o f2).1,
                   ([p1; p2] ++ annotate_events results1
                      ++ annotate_events results2
                      ++ image_message o t (shape a).1.1 (shape a).1.2 f2
                      :: (display o f2).2)%list)
              end
          end
      end
  end.

(** Lines 52 and 53, and lines 57 to 59. *)
Definition decode (msg : inbound) : Exn + ndarray :=
  match msg with
  | Raw image =>
      match reshape (sensor_msgs.data image)
              (sensor_msgs.height image) (sensor_msgs.width image) with
      | inr a => cvtColor_BGR2RGB a
      | inl e => inl e
      end
  | Compressed image =>
      match sensor_msgs.c_data image with
      | [] => inl cv2_error
      | _ :: _ =>
          match imdecode (sensor_msgs.c_data image) with
          | Some a => cvtColor_BGR2RGB a
          | None => inl cv2_error
          end
      end
  end.

Definition callback_outcome (o : Yolo_Dect) (t : N) (msg : inbound)
    : (Exn + unit) * list event :=
  match decode msg with
  | inr a => frame_outcome o t a
  | inl e => (inl e, [])
  end.

(** What rospy adds when the callback raised. *)
Definition logged (r : Exn + unit) : list event :=
  match r with
  | inl e => [Logerr e]
  | inr _ => []
  end.

Fixpoint spin_events (o : Yolo_Dect) (arrivals : list (N * inbound)) : list event :=
  match arrivals with
  | [] => []
  | (t, msg) :: rest =>
      ((callback_outcome o t msg).2 ++ logged (callback_outcome o t msg).1
         ++ spin_events o rest)%list
  end.
End Reading.

(** The node object without the frame it currently holds. *)
Definition config (o : Yolo_Dect) : Yolo_Dect :=
  {| camera_frame := camera_frame o;
     use_compressed := use_compressed o;
     visualize := visualize o;
     self_device := self_device o;
     model1 := model1 o;
     model2 := model2 o;
     color_sub := color_sub o;
     position_pub := position_pub o;
     image_pub := image_pub o;
     color_image := None |}.

(** The merged result in the words of the specification: model 1's
    detections followed by model 2's. *)
Definition MergedResult {A : Type} (D1 D2 : list A) : list A := D1 ++ D2.

(** ** Predicates on what the node emits *)

(** An outbound image message that fits the decoded frame [d]: RGB
    encoding, height and width of the frame, a row stride of three bytes
    per pixel and as many bytes as height times stride. *)
Definition image_message_ok (d : Exn + ndarray) (ev : event) : Prop :=
  match ev with
  | Publish _ (ImageMsg m) =>
      sensor_msgs.encoding m = "rgb8" /\
      sensor_msgs.step m = (sensor_msgs.width m * 3)%N /\
      N.of_nat (length (sensor_msgs.data m)) =
        (sensor_msgs.height m * sensor_msgs.width m * 3)%N /\
      N.of_nat (length (sensor_msgs.data m)) =
        (sensor_msgs.height m * sensor_msgs.step m)%N /\
      exists a, d = inr a /\
        shape a = (sensor_msgs.height m, sensor_msgs.width m, 3%N)
  | _ => True
  end.

(** A detector invocation of the node [o] made with the confidence
    floor 0.3. *)
Definition floor_is_fixed (o : Yolo_Dect) (ev : event) : Prop :=
  match ev with
  | Predict m _ show c =>
      c = (3 # 10)%Q /\ show = false /\ (m = model1 o \/ m = model2 o)
  | _ => True
  end.

(** [z] is [x] with its fraction dropped: the integer next to [x] on
    the side of zero. *)
Definition truncated (x : Q) (z : Z) : Prop :=
  ((0 <= x)%Q -> (inject_Z z <= x)%Q /\ (x < inject_Z z + 1)%Q) /\
  ((x <= 0)%Q -> (inject_Z z - 1 < x)%Q /\ (x <= inject_Z z)%Q).

(** A float whose integer part an [int64] can hold. *)
Definition in_int64_range (x : Q) : Prop :=
  (inject_Z INT64_MIN <= x)%Q /\ (x <= inject_Z INT64_MAX)%Q.

(** ** Where the drawing lands *)

(** Column, row and channel of sample [i] of an array of shape [sh]. *)
Definition sample_column (sh : N * N * N) (i : nat) : Z :=
  Z.of_N ((N.of_nat i / sh.2) mod sh.1.2).

Definition sample_row (sh : N * N * N) (i : nat) : Z :=
  Z.of_N ((N.of_nat i / sh.2) / sh.1.2).

Definition sample_channel (sh : N * N * N) (i : nat) : nat :=
  N.to_nat (N.of_nat i mod sh.2).

Section Coverage.
Context {E : Env}.

(** The pixels the rectangle and the label of one box cover. *)
Definition box_cover (boundingBox : BoundingBox) (x y : Z) : bool :=
  rectangle_cover (xmin boundingBox, ymin boundingBox)
    (xmax boundingBox, ymax boundingBox) 2 x y
  || putText_cover (label boundingBox)
       (xmin boundingBox, wrap_int64 (ymin boundingBox - 10))
       FONT_HERSHEY_SIMPLEX (6 # 10) 2 x y.

(** The pixels some box of [l] covers. *)
Definition covered (l : list BoundingBox) (x y : Z) : bool :=
  existsb (fun boundingBox => box_cover boundingBox x y) l.
End Coverage.

(** The three points of a box that OpenCV reads: the two corners and
    the origin of the label. *)
Definition drawable (boundingBox : BoundingBox) : bool :=
  fits_point (xmin boundingBox, ymin boundingBox)
  && fits_point (xmax boundingBox, ymax boundingBox)
  && fits_point (xmin boundingBox, wrap_int64 (ymin boundingBox - 10)).

(** ** [main]

    [rospy.init_node], the construction of the node object and
    [rospy.spin()]. An exception of the construction leaves [main]
    before any message is handled. The subscription made in [__init__]
    has one message type, and the transport hands to the callback the
    messages of that type only. [main] gives how the node ends and the
    trace it leaves. *)
Definition accepts (sub : Subscriber) (msg : inbound) : bool :=
  match sub_type sub, msg with
  | T_Image, Raw _ => true
  | T_CompressedImage, Compressed _ => true
  | _, _ => false
  end.

Definition delivered (sub : Subscriber) (arrivals : list (N * inbound))
    : list (N * inbound) :=
  List.filter (fun arrival => accepts sub arrival.2) arrivals.

Section Main.
Context {E : Env}.

Definition main (ps : Params.t) (arrivals : list (N * inbound))
    : (Exn + unit) * list event :=
  match __init__ ps with
  | inl e => (inl e, [])
  | inr yolo_dect =>
      let run :=
        spin on_frame (delivered (color_sub yolo_dect) arrivals)
          {| self := yolo_dect; heap := ∅; trace := []; now := 0%N |} in
      (run.1, trace run.2)
  end.
End Main.

(** ** More predicates on what the node emits *)

Definition is_logerr (e : event) : bool :=
  match e with
  | Logerr _ => true
  | _ => false
  end.

Definition is_display (e : event) : bool :=
  match e with
  | Imshow _ _ | WaitKey _ => true
  | _ => false
  end.

Definition is_drawing (e : event) : bool :=
  match e with
  | Rectangle _ _ _ _ | PutText _ _ _ _ _ _ => true
  | _ => false
  end.

(** The frame an image message carries, as an array. *)
Definition frame_of (m : sensor_msgs.Image) : ndarray :=
  {| shape := (sensor_msgs.height m, sensor_msgs.width m, 3%N);
     data := sensor_msgs.data m |}.

(** The box lines 82 to 88 describe for a detection whose class is
    called [name]: the four coordinates without their fraction, the
    name, the confidence as it is. *)
Definition box_of (result : Box) (name : string) : BoundingBox :=
  {| xmin := Qtruncate (xyxy result).1.1.1;
     ymin := Qtruncate (xyxy result).1.1.2;
     xmax := Qtruncate (xyxy result).1.2;
     ymax := Qtruncate (xyxy result).2;
     Class := name;
     probability := conf result |}.

(** A publication of node [o] at time [t]: an image, on [image_pub],
    stamped [t] in the configured coordinate frame. *)
Definition image_on_topic (o : Yolo_Dect) (t : N) (ev : event) : Prop :=
  match ev with
  | Publish p (ImageMsg m) =>
      p = image_pub o /\
      std_msgs.stamp (sensor_msgs.header m) = t /\
      std_msgs.frame_id (sensor_msgs.header m) = camera_frame o
  | Publish _ (BoundingBoxesMsg _) => False
  | _ => True
  end.

Section Whole.
Context {E : Env}.

(** The detector calls of a pass over the decoded frame [d]: model 1 on
    the frame, then, when model 1 answered, model 2 on the same frame,
    both with [show=False] and the floor 0.3. *)
Definition inference_calls (o : Yolo_Dect) (d : Exn + ndarray) : list event :=
  match d with
  | inr a =>
      Predict (model1 o) a false (3 # 10) ::
      match predict (model1 o) a false (3 # 10) with
      | inr _ => [Predict (model2 o) a false (3 # 10)]
      | inl _ => []
      end
  | inl _ => []
  end.

(** What lines 76 to 78 emit after the publication [ev] in a node [o]:
    with [visualize] on, the [imshow] of the frame the message carries
    and, when that returned, the [waitKey]. *)
Definition shown (o : Yolo_Dect) (ev : event) : list event :=
  match ev with
  | Publish _ (ImageMsg m) =>
      if visualize o
      then Imshow "YOLOv8 Combined Detection" (frame_of m) ::
           match imshow "YOLOv8 Combined Detection" (frame_of m) with
           | None => [WaitKey 1]
           | Some _ => []
           end
      else []
  | _ => []
  end.

(** An image message that shows the decoded frame [d] with every box of
    both answers drawn: the bytes are those of the frame, with the
    samples of the pixels some box covers set to green. *)
Definition fully_annotated (o : Yolo_Dect) (d : Exn + ndarray) (ev : event) : Prop :=
  match ev with
  | Publish _ (ImageMsg m) =>
      exists a results1 results2 D1 D2,
        d = inr a /\
        predict (model1 o) a false (3 # 10) = inr results1 /\
        predict (model2 o) a false (3 # 10) = inr results2 /\
        built_boxes results1 = inr D1 /\
        built_boxes results2 = inr D2 /\
        forallb drawable (D1 ++ D2) = true /\
        sensor_msgs.data m = data (paint (covered (D1 ++ D2)) green a)
  | _ => True
  end.
End Whole.

(** ** A small world to run the node in

    Two scripted detectors, a toy container format for compressed
    frames, a one-pixel-wide rectangle outline and a text that marks its
    origin. [script] chooses what each detector answers. *)
Module Sample.
Definition is_model1 (m : YOLO) : bool :=
  if decide (weights m = "new_object_detect.pt") then true else false.

(** Header of two bytes (rows, columns), then the BGR samples. *)
Definition toy_imdecode (buf : list byte) : option ndarray :=
  match buf with
  | h :: w :: payload =>
      let h := Byte.to_N h in
      let w := Byte.to_N w in
      if (N.of_nat (length payload) =? h * w * 3)%N
      then Some {| shape := (h, w, 3%N); data := payload |}
      else None
  | _ => None
  end.

Definition outline (pt1 pt2 : Z * Z) (thickness x y : Z) : bool :=
  (((x =? pt1.1)%Z || (x =? pt2.1)%Z) && (pt1.2 <=? y)%Z && (y <=? pt2.2)%Z)
  || (((y =? pt1.2)%Z || (y =? pt2.2)%Z) && (pt1.1 <=? x)%Z && (x <=? pt2.1)%Z).

Definition origin_mark (text : string) (org : Z * Z) (fontFace : Z)
    (fontScale : Q) (thickness x y : Z) : bool :=
  (x =? org.1)%Z && (y =? org.2)%Z.

(** Two decimals, rounding the hundredths half up. *)
Definition two_decimals (q : Q) : string :=
  let n := Qfloor (q * 100 + (1 # 2)) in
  let cents := (n mod 100)%Z in
  pretty (n / 100)%Z ++ "." ++ (if (cents <? 10)%Z then "0" else "") ++ pretty cents.

Lemma toy_imdecode_consistent buf a :
  toy_imdecode buf = Some a -> consistent a.
Proof.
  destruct buf as [|h [|w payload]]; simpl; try discriminate.
  destruct (N.eqb_spec (N.of_nat (length payload))
              (Byte.to_N h * Byte.to_N w * 3)) as [Hlen|]; [|discriminate].
  intros [= <-]. exact Hlen.
Qed.

Lemma refused_consistent (src a : ndarray) :
  (inl cv2_error : Exn + ndarray) = inr a ->
  shape a = ((shape src).1.1, (shape src).1.2, 3%N) /\ consistent a.
Proof. discriminate. Qed.

Definition script (answer1 answer2 : Exn + list Results) : Env :=
  {| predict := fun m _ _ _ => if is_model1 m then answer1 else answer2;
     imdecode := toy_imdecode;
     rectangle_cover := outline;
     putText_cover := origin_mark;
     format_2f := two_decimals;
     imshow := fun _ _ => None;
     waitKey := fun _ => None;
     YOLO_error := fun _ => None;
     fuse_error := fun _ => None;
     to_error := fun _ _ => None;
     cvtColor_wide := fun _ => inl cv2_error;
     imdecode_consistent := toy_imdecode_consistent;
     cvtColor_wide_consistent := refused_consistent |}.

(** The same world on a machine without a display and without a GPU. *)
Definition headless (answer1 answer2 : Exn + list Results) : Env :=
  {| predict := fun m _ _ _ => if is_model1 m then answer1 else answer2;
     imdecode := toy_imdecode;
     rectangle_cover := outline;
     putText_cover := origin_mark;
     format_2f := two_decimals;
     imshow := fun _ _ => Some cv2_error;
     waitKey := fun _ => None;
     YOLO_error := fun _ => None;
     fuse_error := fun _ => None;
     to_error := fun dev _ =>
       if decide (dev = "cuda") then Some (RuntimeError "no CUDA device") else None;
     cvtColor_wide := fun _ => inl cv2_error;
     imdecode_consistent := toy_imdecode_consistent;
     cvtColor_wide_consistent := refused_consistent |}.

Definition empty_result : Results :=
  {| boxes := []; names := {[ 0%Z := "person" ]} |}.

Definition person_result : Results :=
  {| boxes := [ {| xyxy := (7 # 10, 2 # 10, 19 # 10, 16 # 10)%Q;
                   cls := 0; conf := 91 # 100 |} ];
     names := {[ 0%Z := "person" ]} |}.

(** The box [handle_results] builds from the one of [person_result]. *)
Definition person_box : BoundingBox :=
  {| probability := 91 # 100; xmin := 0; ymin := 0; xmax := 1; ymax := 1;
     Class := "person" |}.

Definition no_detections : Exn + list Results := inr [empty_result].

Definition one_person : Exn + list Results := inr [person_result].

Definition rgb_2x2 : ndarray :=
  {| shape := (2%N, 2%N, 3%N);
     data := ["255"; "000"; "000"; "000"; "255"; "000";
              "000"; "000"; "255"; "255"; "255"; "255"]%byte |}.

(** A node that holds [a] as its current frame. *)
Definition holding (ps : Params.t) (a : ndarray) : State :=
  set_color_image (Some 1%positive)
    (set_heap {[ 1%positive := a ]} (initial_state ps)).

Definition quiet : Params.t :=
  {| Params.weight_path := None; Params.image_topic := None;
     Params.pub_topic := None; Params.camera_frame := Some "camera";
     Params.use_compressed := None; Params.conf := None;
     Params.visualize := Some false; Params.use_cpu := Some true |}.

Definition raw_image (h w : N) (payload : list byte) : sensor_msgs.Image :=
  {| sensor_msgs.header := {| std_msgs.stamp := 0; std_msgs.frame_id := "camera" |};
     sensor_msgs.height := h; sensor_msgs.width := w;
     sensor_msgs.encoding := "bgr8"; sensor_msgs.is_bigendian := 0;
     sensor_msgs.step := w * 3; sensor_msgs.data := payload |}.
End Sample.

(** * Properties *)

Local Close Scope string_scope.

(** ** Arrays *)

Lemma swap_rb3_length (k : nat) : forall l : list byte,
  length l = 3 * k -> length (swap_rb3 l) = 3 * k.
Proof.
  induction k as [|k IH]; intros l Hl.
  - destruct l; [reflexivity | discriminate].
  - destruct l as [|b [|g [|r rest]]]; simpl in Hl; try lia.
    simpl. rewrite (IH rest); lia.
Qed.

Lemma swap_rb4_length (k : nat) : forall l : list byte,
  length l = 4 * k -> length (swap_rb4 l) = 3 * k.
Proof.
  induction k as [|k IH]; intros l Hl.
  - destruct l; [reflexivity | discriminate].
  - destruct l as [|b [|g [|r [|x rest]]]]; simpl in Hl; try lia.
    simpl. rewrite (IH rest); lia.
Qed.

Lemma gray_to_rgb_length (l : list byte) :
  length (gray_to_rgb l) = 3 * length l.
Proof. induction l as [|g l IH]; simpl; lia. Qed.

(** Pixel [i] of the reordered buffer is pixel [i] of the source with
    its first and third sample exchanged. *)
Lemma swap_rb3_lookup (i : nat) : forall l : list byte,
  3 * i + 2 < length l ->
  swap_rb3 l !! (3 * i) = l !! (3 * i + 2) /\
  swap_rb3 l !! (3 * i + 1) = l !! (3 * i + 1) /\
  swap_rb3 l !! (3 * i + 2) = l !! (3 * i).
Proof.
  induction i as [|i IH]; intros l Hl.
  - destruct l as [|b [|g [|r rest]]]; simpl in Hl; try lia. auto.
  - destruct l as [|b [|g [|r rest]]]; simpl in Hl; try lia.
    replace (3 * S i) with (S (S (S (3 * i)))) by lia.
    simpl. apply IH. lia.
Qed.

Lemma paint_shape cover color img : shape (paint cover color img) = shape img.
Proof. unfold paint. destruct (shape img) as [[h w] c]. reflexivity. Qed.

Lemma paint_length cover color img :
  length (data (paint cover color img)) = length (data img).
Proof.
  unfold paint. destruct (shape img) as [[h w] c]. simpl. apply length_imap.
Qed.

(** A shape that covers no pixel leaves the samples alone. *)
Lemma paint_nothing color img :
  paint (fun _ _ => false) color img = img.
Proof.
  unfold paint. destruct img as [[[h w] c] d]. simpl. f_equal.
  apply list_eq. intros i. rewrite list_lookup_imap.
  destruct (d !! i); reflexivity.
Qed.

Section Frames.
Context {E : Env}.

Lemma draw_keeps boundingBox img img' :
  draw boundingBox img = inr img' ->
  shape img' = shape img /\ length (data img') = length (data img).
Proof.
  unfold draw, cv2_rectangle, cv2_putText. intros H.
  destruct (fits_point _ && fits_point _); [|discriminate].
  destruct (fits_point _); [|discriminate].
  injection H as <-. rewrite !paint_shape, !paint_length. auto.
Qed.

Lemma draw_boxes_keeps r0 bs : forall img img',
  draw_boxes r0 bs img = inr img' ->
  shape img' = shape img /\ length (data img') = length (data img).
Proof.
  induction bs as [|b bs IH]; simpl; intros img img' H.
  - injection H as <-. auto.
  - destruct (make_BoundingBox r0 b) as [|bb]; [discriminate|].
    destruct (draw bb img) as [|img1] eqn:Hd; [discriminate|].
    apply draw_keeps in Hd as [Hs Hl].
    apply IH in H as [-> ->]. auto.
Qed.

Lemma annotate_keeps results img img' :
  annotate results img = inr img' ->
  shape img' = shape img /\ length (data img') = length (data img).
Proof.
  unfold annotate. destruct (first_result results); [discriminate|].
  apply draw_boxes_keeps.
Qed.

(** The loop of [handle_results] draws what [draw_all] draws from the
    boxes it builds. *)
Lemma draw_boxes_built r0 bs : forall l img,
  built r0 bs = inr l -> draw_boxes r0 bs img = draw_all l img.
Proof.
  induction bs as [|b bs IH]; simpl; intros l img H.
  - injection H as <-. reflexivity.
  - destruct (make_BoundingBox r0 b) as [|bb]; [discriminate|].
    destruct (built r0 bs) as [|l']; [discriminate|].
    injection H as <-. simpl.
    destruct (draw bb img); [reflexivity|]. auto.
Qed.

Lemma built_length r0 bs : forall l,
  built r0 bs = inr l -> length l = length bs.
Proof.
  induction bs as [|b bs IH]; simpl; intros l H.
  - injection H as <-. reflexivity.
  - destruct (make_BoundingBox r0 b); [discriminate|].
    destruct (built r0 bs); [discriminate|].
    injection H as <-. simpl. f_equal. auto.
Qed.

Lemma draw_all_app l1 : forall l2 img,
  draw_all (l1 ++ l2) img =
  match draw_all l1 img with
  | inr img' => draw_all l2 img'
  | inl e => inl e
  end.
Proof.
  induction l1 as [|b l1 IH]; simpl; intros l2 img; [reflexivity|].
  destruct (draw b img); [reflexivity|]. apply IH.
Qed.
End Frames.

(** ** Drawing, sample by sample *)

Lemma paint_data cover color img :
  data (paint cover color img) =
  imap (fun i b =>
          if cover (sample_column (shape img) i) (sample_row (shape img) i)
          then nth (sample_channel (shape img) i) color "000"%byte
          else b) (data img).
Proof. unfold paint. destruct (shape img) as [[h w] c]. reflexivity. Qed.

Lemma paint_lookup cover color img i :
  data (paint cover color img) !! i =
  (fun b => if cover (sample_column (shape img) i) (sample_row (shape img) i)
            then nth (sample_channel (shape img) i) color "000"%byte
            else b) <$> data img !! i.
Proof. rewrite paint_data. apply list_lookup_imap. Qed.

Lemma ndarray_eq (a b : ndarray) :
  shape a = shape b -> data a = data b -> a = b.
Proof. destruct a, b. simpl. intros -> ->. reflexivity. Qed.

Lemma paint_ext cover cover' color img :
  (forall x y, cover x y = cover' x y) ->
  paint cover color img = paint cover' color img.
Proof.
  intros H. apply ndarray_eq; [rewrite !paint_shape; reflexivity|].
  apply list_eq. intros i. rewrite !paint_lookup, H. reflexivity.
Qed.

(** Two shapes drawn one after the other in one colour are their union
    drawn once. *)
Lemma paint_paint cover1 cover2 color img :
  paint cover2 color (paint cover1 color img) =
  paint (fun x y => cover1 x y || cover2 x y) color img.
Proof.
  apply ndarray_eq; [rewrite !paint_shape; reflexivity|].
  apply list_eq. intros i. rewrite !paint_lookup, paint_shape.
  destruct (data img !! i) as [b|]; simpl; [|reflexivity].
  destruct (cover1 _ _), (cover2 _ _); reflexivity.
Qed.

Section Pixels.
Context {E : Env}.

Lemma draw_drawable boundingBox img :
  draw boundingBox img =
  if drawable boundingBox
  then inr (paint (box_cover boundingBox) green img)
  else inl cv2_error.
Proof.
  unfold draw, drawable, cv2_rectangle, cv2_putText, box_cover.
  destruct (fits_point (xmin boundingBox, ymin boundingBox)
            && fits_point (xmax boundingBox, ymax boundingBox)); [|reflexivity].
  simpl. destruct (fits_point _); [|reflexivity].
  rewrite paint_paint. reflexivity.
Qed.

Lemma draw_all_paint l : forall img,
  draw_all l img =
  if forallb drawable l then inr (paint (covered l) green img) else inl cv2_error.
Proof.
  induction l as [|b l IH]; intros img; simpl.
  - f_equal. symmetry. apply paint_nothing.
  - rewrite draw_drawable. destruct (drawable b); [|reflexivity]. simpl.
    rewrite IH. destruct (forallb drawable l); [|reflexivity].
    f_equal. rewrite paint_paint. reflexivity.
Qed.

Lemma forallb_Permutation {A : Type} (f : A -> bool) (l l' : list A) :
  l ≡ₚ l' -> forallb f l = forallb f l'.
Proof.
  induction 1 as [|x l l' _ IH|x y l|l l' l'' _ IH1 _ IH2]; simpl.
  - reflexivity.
  - rewrite IH. reflexivity.
  - destruct (f x), (f y); reflexivity.
  - congruence.
Qed.

Lemma existsb_Permutation {A : Type} (f : A -> bool) (l l' : list A) :
  l ≡ₚ l' -> existsb f l = existsb f l'.
Proof.
  induction 1 as [|x l l' _ IH|x y l|l l' l'' _ IH1 _ IH2]; simpl.
  - reflexivity.
  - rewrite IH. reflexivity.
  - destruct (f x), (f y); reflexivity.
  - congruence.
Qed.

Lemma draw_boxes_inr r0 bs : forall img f,
  draw_boxes r0 bs img = inr f ->
  exists l, built r0 bs = inr l /\ draw_all l img = inr f.
Proof.
  induction bs as [|b bs IH]; simpl; intros img f H.
  - exists []. auto.
  - destruct (make_BoundingBox r0 b) as [|bb]; [discriminate|].
    destruct (draw bb img) as [|img1] eqn:Hd; [discriminate|].
    destruct (IH _ _ H) as (l & -> & Hl). exists (bb :: l).
    simpl. rewrite Hd. auto.
Qed.

Lemma annotate_inr results img f :
  annotate results img = inr f ->
  exists D, built_boxes results = inr D /\
            forallb drawable D = true /\
            f = paint (covered D) green img.
Proof.
  unfold annotate, built_boxes. destruct (first_result results) as [|r0];
    [discriminate|].
  intros H. apply draw_boxes_inr in H as (l & Hb & Hd). exists l.
  split; [exact Hb|]. rewrite draw_all_paint in Hd.
  destruct (forallb drawable l); [|discriminate]. injection Hd as <-. auto.
Qed.

Lemma covered_app l1 l2 x y :
  covered (l1 ++ l2) x y = covered l1 x y || covered l2 x y.
Proof. unfold covered. apply existsb_app. Qed.

Lemma np_copy_same a : np_copy a = a.
Proof. destruct a. reflexivity. Qed.

End Pixels.

(** ** Runs of the methods *)

Lemma set_heap_same s : set_heap (heap s) s = s.
Proof. destruct s. reflexivity. Qed.

Lemma bind_run {A B : Type} (m : M A) (f : A -> M B) (s : State) :
  (m ≫= f) s =
  match m s with
  | (inr a, s') => f a s'
  | (inl e, s') => (inl e, s')
  end.
Proof. reflexivity. Qed.

Section Runs.
Context {E : Env}.

Lemma add_events_nil s : add_events [] s = s.
Proof. destruct s. unfold add_events. simpl. rewrite app_nil_r. reflexivity. Qed.

Lemma add_events_add_events evs1 evs2 s :
  add_events evs2 (add_events evs1 s) = add_events (evs1 ++ evs2) s.
Proof. unfold add_events. simpl. rewrite app_assoc. reflexivity. Qed.

Lemma bind_get_self {B : Type} (f : Yolo_Dect -> M B) s :
  (get_self ≫= f) s = f (self s) s.
Proof. reflexivity. Qed.

Lemma bind_emit {B : Type} e (f : unit -> M B) s :
  (emit e ≫= f) s = f tt (add_events [e] s).
Proof. reflexivity. Qed.

Lemma bind_alloc {B : Type} a (f : loc -> M B) s :
  (alloc a ≫= f) s =
  f (fresh (dom (heap s))) (set_heap (<[fresh (dom (heap s)) := a]> (heap s)) s).
Proof. reflexivity. Qed.

Lemma bind_assign {B : Type} l (f : unit -> M B) s :
  (assign_color_image l ≫= f) s = f tt (set_color_image l s).
Proof. reflexivity. Qed.

Lemma bind_Time_now {B : Type} (f : N -> M B) s :
  (Time_now ≫= f) s = f (now s) s.
Proof. reflexivity. Qed.

Lemma bind_load {B : Type} l a (f : ndarray -> M B) s :
  heap s !! l = Some a -> (load l ≫= f) s = f a s.
Proof. intros H. rewrite bind_run. unfold load. rewrite H. reflexivity. Qed.

Lemma bind_store {B : Type} l a (f : unit -> M B) s :
  is_Some (heap s !! l) ->
  (store l a ≫= f) s = f tt (set_heap (<[l := a]> (heap s)) s).
Proof.
  intros [x H]. rewrite bind_run. unfold store. rewrite H. reflexivity.
Qed.

Lemma bind_lift {A B : Type} (r : Exn + A) (f : A -> M B) s :
  (lift r ≫= f) s =
  match r with
  | inr a => f a s
  | inl e => (inl e, s)
  end.
Proof. rewrite bind_run. unfold lift. destruct r; reflexivity. Qed.

Lemma bind_read_color_image {B : Type} l (f : loc -> M B) s :
  color_image (self s) = Some l -> (read_color_image ≫= f) s = f l s.
Proof.
  intros H. rewrite bind_run. unfold read_color_image.
  rewrite bind_get_self, H. reflexivity.
Qed.

(** The state after drawing: the array [frame] names holds [img'], the
    calls [evs] were made. *)
Lemma drawn_nothing frame img s :
  heap s !! frame = Some img ->
  add_events [] (set_heap (<[frame := img]> (heap s)) s) = s.
Proof.
  intros H. rewrite add_events_nil, insert_id, set_heap_same by done.
  reflexivity.
Qed.

(** One iteration of the loop writes only into the array [frame]
    names. *)
Lemma handle_result_run r0 frame result s img :
  heap s !! frame = Some img ->
  exists img',
    handle_result r0 frame result s =
      (match make_BoundingBox r0 result with
       | inr boundingBox =>
           match draw boundingBox img with
           | inr _ => inr tt
           | inl e => inl e
           end
       | inl e => inl e
       end,
       add_events
         (match make_BoundingBox r0 result with
          | inr boundingBox => draw_events boundingBox
          | inl _ => []
          end)
         (set_heap (<[frame := img']> (heap s)) s)) /\
    (forall boundingBox f,
       make_BoundingBox r0 result = inr boundingBox ->
       draw boundingBox img = inr f -> img' = f).
Proof.
  intros Hf. unfold handle_result. rewrite bind_lift.
  destruct (make_BoundingBox r0 result) as [e|bb].
  { exists img. rewrite drawn_nothing by done. split; [done|]. discriminate. }
  rewrite (bind_load frame img) by done. rewrite bind_emit, bind_lift.
  unfold draw, draw_events, cv2_rectangle, cv2_putText.
  destruct (fits_point (xmin bb, ymin bb) && fits_point (xmax bb, ymax bb))
    eqn:Hr.
  2:{ exists img. simpl. rewrite insert_id by done.
      split; [destruct s; reflexivity|].
      intros ? ? [= <-]. rewrite Hr. discriminate. }
  rewrite bind_store by (simpl; eauto). rewrite bind_emit, bind_lift.
  set (img1 := paint (rectangle_cover _ _ _) green img).
  destruct (fits_point (xmin bb, wrap_int64 (ymin bb - 10))) eqn:Ht.
  2:{ exists img1. split.
      - unfold set_heap, add_events. simpl. rewrite <- app_assoc. reflexivity.
      - intros ? ? [= <-]. rewrite Hr, Ht. discriminate. }
  unfold store. simpl. rewrite lookup_insert_eq.
  eexists. unfold set_heap, add_events. simpl. rewrite insert_insert_eq.
  rewrite <- app_assoc. split; [reflexivity|].
  intros ? ? [= <-]. rewrite Hr, Ht. intros [= <-]. reflexivity.
Qed.

Lemma for_each_handle_result r0 frame bs : forall s img,
  heap s !! frame = Some img ->
  exists img',
    for_each (handle_result r0 frame) bs s =
      (match draw_boxes r0 bs img with
       | inr _ => inr tt
       | inl e => inl e
       end,
       add_events (draw_boxes_events r0 bs)
         (set_heap (<[frame := img']> (heap s)) s)) /\
    (forall f, draw_boxes r0 bs img = inr f -> img' = f).
Proof.
  induction bs as [|b bs IH]; intros s img Hf.
  - exists img. simpl. rewrite drawn_nothing by done.
    split; [done|]. congruence.
  - simpl for_each. rewrite bind_run.
    destruct (handle_result_run r0 frame b s img Hf) as (img1 & -> & Himg1).
    simpl draw_boxes. simpl draw_boxes_events.
    destruct (make_BoundingBox r0 b) as [e|bb].
    { exists img1. split; [done|]. discriminate. }
    destruct (draw bb img) as [e|f1] eqn:Hd.
    { exists img1. split; [|discriminate].
      unfold draw, cv2_rectangle, cv2_putText in Hd. unfold draw_events.
      destruct (fits_point (xmin bb, ymin bb) && fits_point (xmax bb, ymax bb));
        simpl; [|reflexivity].
      destruct (fits_point (xmin bb, wrap_int64 (ymin bb - 10)));
        [discriminate|]. reflexivity. }
    specialize (Himg1 bb f1 eq_refl Hd). subst img1.
    assert (Hok : fits_point (xmin bb, ymin bb) && fits_point (xmax bb, ymax bb)
                  && fits_point (xmin bb, wrap_int64 (ymin bb - 10)) = true).
    { unfold draw, cv2_rectangle, cv2_putText in Hd.
      destruct (fits_point (xmin bb, ymin bb) && fits_point (xmax bb, ymax bb));
        [|discriminate].
      destruct (fits_point (xmin bb, wrap_int64 (ymin bb - 10)));
        [reflexivity|discriminate]. }
    rewrite Hok.
    match goal with |- context [for_each _ bs ?s1] =>
      destruct (IH s1 f1) as (img' & -> & Himg')
    end.
    { simpl. apply lookup_insert_eq. }
    exists img'. unfold set_heap, add_events. simpl. rewrite insert_insert_eq.
    rewrite <- app_assoc. split; [done|]. exact Himg'.
Qed.

Lemma handle_results_run results frame s img :
  heap s !! frame = Some img ->
  exists img',
    handle_results results frame s =
      (match annotate results img with
       | inr _ => inr frame
       | inl e => inl e
       end,
       add_events (annotate_events results)
         (set_heap (<[frame := img']> (heap s)) s)) /\
    (forall f, annotate results img = inr f -> img' = f).
Proof.
  intros Hf. unfold handle_results, annotate, annotate_events. rewrite bind_lift.
  destruct (first_result results) as [e|r0].
  { exists img. rewrite drawn_nothing by done. split; [done|]. discriminate. }
  rewrite bind_run.
  destruct (for_each_handle_result r0 frame (boxes r0) s img Hf) as (img' & -> & Himg').
  exists img'. split; [|exact Himg'].
  destruct (draw_boxes r0 (boxes r0) img); reflexivity.
Qed.

Lemma call_model_run model l a show c s :
  heap s !! l = Some a ->
  call_model model l show c s =
    (predict model a show c, add_events [Predict model a show c] s).
Proof.
  intros H. unfold call_model. rewrite (bind_load l a) by done.
  rewrite bind_emit. reflexivity.
Qed.

Lemma fresh_lookup (h : gmap loc ndarray) : h !! fresh (dom h) = None.
Proof. apply not_elem_of_dom. apply is_fresh. Qed.

Lemma publish_image_run frame f height width s :
  heap s !! frame = Some f ->
  publish_image frame height width s =
    (inr tt, add_events [image_message (self s) (now s) height width f] s).
Proof.
  intros H. unfold publish_image.
  rewrite bind_get_self, bind_Time_now, (bind_load frame f) by done.
  reflexivity.
Qed.

Lemma bind_raise_if {B : Type} (o : option Exn) (f : unit -> M B) s :
  (raise_if o ≫= f) s =
  match o with
  | Some e => (inl e, s)
  | None => f tt s
  end.
Proof. rewrite bind_run. destruct o; reflexivity. Qed.

(** A pass of [process_image] ends and emits as [frame_outcome] says,
    keeps the node object and the clock, and leaves every array that
    was in the store as it was. *)
Lemma process_image_run s l a :
  color_image (self s) = Some l ->
  heap s !! l = Some a ->
  exists s',
    process_image s = ((frame_outcome (self s) (now s) a).1, s') /\
    trace s' = trace s ++ (frame_outcome (self s) (now s) a).2 /\
    self s' = self s /\ now s' = now s /\
    (forall l', is_Some (heap s !! l') -> heap s' !! l' = heap s !! l').
Proof.
  intros Hc Hl. unfold process_image, frame_outcome.
  rewrite bind_get_self, (bind_read_color_image l) by done.
  rewrite bind_run, (call_model_run _ l a) by done.
  destruct (predict (model1 (self s)) a false (3 # 10)) as [e|results1].
  { eexists. split; [reflexivity|]. simpl. auto. }
  rewrite (bind_read_color_image l) by done.
  rewrite bind_run, (call_model_run _ l a) by done.
  destruct (predict (model2 (self s)) a false (3 # 10)) as [e|results2].
  { eexists. split; [reflexivity|]. simpl. rewrite <- app_assoc. auto. }
  rewrite (bind_read_color_image l), (bind_load l a) by done.
  rewrite bind_alloc. simpl heap.
  set (frame := fresh (dom (heap s))).
  assert (Hfresh : heap s !! frame = None) by apply fresh_lookup.
  assert (Hne : frame <> l) by congruence.
  assert (Hkeep : forall (img : ndarray) l', is_Some (heap s !! l') ->
            <[frame := img]> (heap s) !! l' = heap s !! l').
  { intros img l' [x Hx]. rewrite lookup_insert_ne; [done|]. congruence. }
  rewrite bind_run.
  match goal with |- context [handle_results results1 frame ?s1] =>
    destruct (handle_results_run results1 frame s1 (np_copy a)) as (f1' & -> & Hf1)
  end.
  { simpl. apply lookup_insert_eq. }
  unfold set_heap at 1 2. simpl heap. rewrite insert_insert_eq.
  destruct (annotate results1 (np_copy a)) as [e|f1].
  { eexists. split; [reflexivity|]. simpl. rewrite <- !app_assoc.
    repeat split; try done. apply Hkeep. }
  specialize (Hf1 f1 eq_refl). subst f1'.
  rewrite bind_run.
  match goal with |- context [handle_results results2 frame ?s1] =>
    destruct (handle_results_run results2 frame s1 f1) as (f2' & -> & Hf2)
  end.
  { simpl. apply lookup_insert_eq. }
  unfold set_heap at 1 2. simpl heap. rewrite insert_insert_eq.
  destruct (annotate results2 f1) as [e|f2].
  { eexists. split; [reflexivity|]. simpl. rewrite <- !app_assoc.
    repeat split; try done. apply Hkeep. }
  specialize (Hf2 f2 eq_refl). subst f2'.
  rewrite (bind_read_color_image l) by done.
  rewrite (bind_load l a) by (simpl; rewrite lookup_insert_ne; done).
  rewrite bind_run, (publish_image_run frame f2) by (simpl; apply lookup_insert_eq).
  simpl self. simpl now. unfold display.
  destruct (visualize (self s)).
  - rewrite (bind_load frame f2) by (simpl; apply lookup_insert_eq).
    rewrite bind_emit, bind_raise_if.
    destruct (imshow _ f2).
    { eexists. split; [reflexivity|]. simpl. rewrite <- !app_assoc.
      repeat split; try done. apply Hkeep. }
    rewrite bind_emit. unfold raise_if.
    destruct (waitKey 1).
    + eexists. split; [reflexivity|]. simpl. rewrite <- !app_assoc.
      repeat split; try done. apply Hkeep.
    + eexists. split; [reflexivity|]. simpl. rewrite <- !app_assoc.
      repeat split; try done. apply Hkeep.
  - eexists. split; [reflexivity|]. simpl. rewrite <- !app_assoc.
    repeat split; try done. apply Hkeep.
Qed.

(** From the stored BGR array on, both callbacks run the same lines. *)
Lemma convert_and_process_run a0 s :
  let run :=
    (l ← alloc a0;
     assign_color_image (Some l);;
     img ← read_color_image;
     a ← load img;
     b ← lift (cvtColor_BGR2RGB a);
     l ← alloc b;
     assign_color_image (Some l);;
     process_image) in
  let outcome :=
    match cvtColor_BGR2RGB a0 with
    | inr a => frame_outcome (self s) (now s) a
    | inl e => (inl e, [])
    end in
  exists s',
    run s = (outcome.1, s') /\
    trace s' = trace s ++ outcome.2 /\
    config (self s') = config (self s) /\ now s' = now s /\
    (forall l', is_Some (heap s !! l') -> heap s' !! l' = heap s !! l') /\
    (forall a, cvtColor_BGR2RGB a0 = inr a ->
       exists l, color_image (self s') = Some l /\ heap s' !! l = Some a).
Proof.
  intros run outcome. subst run outcome.
  rewrite bind_alloc, bind_assign.
  set (l0 := fresh (dom (heap s))).
  assert (Hl0 : heap s !! l0 = None) by apply fresh_lookup.
  rewrite (bind_read_color_image l0) by reflexivity.
  rewrite (bind_load l0 a0) by (simpl; apply lookup_insert_eq).
  rewrite bind_lift.
  destruct (cvtColor_BGR2RGB a0) as [e|b].
  { eexists. split; [reflexivity|]. simpl. rewrite app_nil_r.
    repeat split; try done.
    intros l' [x Hx]. rewrite lookup_insert_ne; [done|]. congruence. }
  rewrite bind_alloc, bind_assign. simpl heap.
  set (h1 := <[l0 := a0]> (heap s)).
  set (l1 := fresh (dom h1)).
  assert (Hl1 : h1 !! l1 = None) by apply fresh_lookup.
  match goal with |- context [process_image ?s1] =>
    destruct (process_image_run s1 l1 b) as (s' & Hrun & Htr & Hself & Hnow & Hheap)
  end.
  { reflexivity. }
  { simpl. apply lookup_insert_eq. }
  exists s'. split; [exact Hrun|]. split; [exact Htr|].
  split; [rewrite Hself; reflexivity|]. split; [exact Hnow|]. split.
  - intros l' [x Hx].
    assert (Hne0 : l0 <> l') by congruence.
    assert (Hx1 : h1 !! l' = Some x)
      by (subst h1; rewrite lookup_insert_ne; done).
    assert (Hne1 : l1 <> l') by congruence.
    rewrite Hheap; simpl; rewrite lookup_insert_ne by done.
    + rewrite Hx1. done.
    + eauto.
  - intros a [= <-]. exists l1. rewrite Hself. split; [reflexivity|].
    rewrite Hheap; simpl; rewrite lookup_insert_eq; eauto.
Qed.

(** A callback ends and emits as [callback_outcome] says; it replaces
    the held frame and changes nothing else of the node object. *)
Lemma on_frame_run msg s :
  exists s',
    on_frame msg s = ((callback_outcome (self s) (now s) msg).1, s') /\
    trace s' = trace s ++ (callback_outcome (self s) (now s) msg).2 /\
    config (self s') = config (self s) /\ now s' = now s /\
    (forall l', is_Some (heap s !! l') -> heap s' !! l' = heap s !! l') /\
    (forall a, decode msg = inr a ->
       exists l, color_image (self s') = Some l /\ heap s' !! l = Some a).
Proof.
  unfold callback_outcome.
  destruct msg as [image|image]; simpl on_frame; simpl decode.
  - unfold image_callback. rewrite bind_lift.
    destruct (reshape _ _ _) as [e|a0].
    { exists s. simpl. rewrite app_nil_r. repeat split; try done. }
    apply convert_and_process_run.
  - unfold compressed_image_callback.
    destruct (sensor_msgs.c_data image) as [|c0 buf] eqn:Hbuf.
    { exists s. simpl. rewrite app_nil_r. repeat split; try done. }
    destruct (imdecode _) as [a0|].
    + apply convert_and_process_run.
    + rewrite bind_assign. eexists. split; [reflexivity|]. simpl.
      rewrite app_nil_r. repeat split; try done.
Qed.

Lemma callback_outcome_config o o' t msg :
  config o = config o' -> callback_outcome o t msg = callback_outcome o' t msg.
Proof.
  intros H. unfold callback_outcome, frame_outcome, image_message, display.
  injection H as -> _ -> _ -> -> _ _ ->. reflexivity.
Qed.

Lemma spin_events_config o o' arrivals :
  config o = config o' -> spin_events o arrivals = spin_events o' arrivals.
Proof.
  intros H. induction arrivals as [|[t msg] rest IH]; simpl; [reflexivity|].
  rewrite IH, (callback_outcome_config o o' t msg H). reflexivity.
Qed.

(** The node handles every delivered message and never stops on one:
    [spin] returns normally whatever the callbacks raised. *)
Lemma spin_run arrivals : forall s,
  exists s',
    spin on_frame arrivals s = (inr tt, s') /\
    trace s' = trace s ++ spin_events (self s) arrivals /\
    config (self s') = config (self s).
Proof.
  induction arrivals as [|[t msg] rest IH]; intros s.
  - exists s. simpl. rewrite app_nil_r. auto.
  - simpl spin. rewrite bind_run. unfold set_clock at 1.
    rewrite bind_run. unfold invoke_callback at 1.
    destruct (on_frame_run msg (set_now t s)) as (s1 & Hrun & Htr & Hcfg & _).
    rewrite Hrun. simpl now in *. simpl self in *. simpl trace in Htr.
    destruct ((callback_outcome (self s) t msg).1) as [e|[]] eqn:Hres.
    + destruct (IH (add_event (Logerr e) s1)) as (s' & -> & Htr' & Hcfg').
      exists s'. split; [reflexivity|]. simpl in *.
      rewrite Htr', Htr, Hres. simpl.
      rewrite (spin_events_config (self s1) (self s)) by done.
      rewrite <- !app_assoc. split; [reflexivity|]. congruence.
    + destruct (IH s1) as (s' & -> & Htr' & Hcfg').
      exists s'. split; [reflexivity|]. simpl in *.
      rewrite Htr', Htr, Hres. simpl.
      rewrite (spin_events_config (self s1) (self s)) by done.
      rewrite <- !app_assoc. split; [reflexivity|]. congruence.
Qed.

Lemma emitted_app {A : Type} (m : M A) s evs :
  trace (m s).2 = trace s ++ evs -> emitted m s = evs.
Proof. intros H. unfold emitted. rewrite H. apply drop_app_length. Qed.

Lemma emitted_on_frame msg s :
  emitted (on_frame msg) s = (callback_outcome (self s) (now s) msg).2.
Proof.
  destruct (on_frame_run msg s) as (s' & Hrun & Htr & _).
  apply emitted_app. rewrite Hrun. exact Htr.
Qed.

Lemma emitted_spin arrivals s :
  emitted (spin on_frame arrivals) s = spin_events (self s) arrivals.
Proof.
  destruct (spin_run arrivals s) as (s' & Hrun & Htr & _).
  apply emitted_app. rewrite Hrun. exact Htr.
Qed.
End Runs.

(** ** Decoding a raw frame *)

Lemma reshape_fits buf h w c :
  (h * w)%N <> 0%N -> c <> 0%N ->
  N.of_nat (length buf) = (h * w * c)%N ->
  reshape buf h w = inr {| shape := (h, w, c); data := buf |}.
Proof.
  intros Hhw Hc Hn. unfold reshape. rewrite Hn.
  destruct (N.eqb_spec (h * w) 0) as [|_]; [done|].
  assert (Hguard : (NPY_MAX_INTP <? h * w)%N && (h * w * c <=? NPY_MAX_INTP)%N
                   = false).
  { destruct (N.ltb_spec NPY_MAX_INTP (h * w)) as [Hbig|_]; [|reflexivity].
    destruct (N.leb_spec (h * w * c) NPY_MAX_INTP) as [Hsmall|_]; [nia|].
    reflexivity. }
  rewrite Hguard.
  rewrite (N.mul_comm (h * w) c), N.Div0.mod_mul, N.div_mul by done.
  reflexivity.
Qed.

(** When [reshape] succeeds the payload is a whole number of pixels. *)
Lemma reshape_inr buf h w a :
  reshape buf h w = inr a ->
  (h * w)%N <> 0%N /\
  a = {| shape := (h, w, (N.of_nat (length buf) / (h * w))%N); data := buf |} /\
  N.of_nat (length buf) = (h * w * (N.of_nat (length buf) / (h * w)))%N.
Proof.
  unfold reshape. intros H.
  destruct (N.eqb_spec (h * w) 0) as [|Hhw]; [discriminate|].
  destruct (_ && _); [discriminate|].
  destruct (N.eqb_spec (N.of_nat (length buf) mod (h * w)) 0) as [Hmod|];
    [|discriminate].
  injection H as <-. repeat split; try done.
  rewrite (N.div_mod (N.of_nat (length buf)) (h * w)) at 1 by done.
  rewrite Hmod. lia.
Qed.

Lemma cvtColor_inr `{E : Env} src a :
  consistent src ->
  cvtColor_BGR2RGB src = inr a ->
  shape a = ((shape src).1.1, (shape src).1.2, 3%N) /\ consistent a.
Proof.
  unfold cvtColor_BGR2RGB, consistent.
  destruct src as [[[h w] c] d] eqn:Hsrc. simpl. intros Hd H.
  destruct (N.eqb_spec (h * w * c) 0) as [|Hne]; [discriminate|].
  destruct (CV_CN_MAX <? c)%N.
  { apply cvtColor_wide_consistent in H. exact H. }
  destruct (N.eqb_spec c 1) as [->|Hc1].
  { injection H as <-. simpl. split; [reflexivity|].
    rewrite gray_to_rgb_length. lia. }
  destruct (N.eqb_spec c 3) as [->|Hc3].
  { injection H as <-. simpl. split; [reflexivity|].
    rewrite (swap_rb3_length (N.to_nat (h * w))); lia. }
  destruct (N.eqb_spec c 4) as [->|Hc4]; [|discriminate].
  injection H as <-. simpl. split; [reflexivity|].
  rewrite (swap_rb4_length (N.to_nat (h * w))); lia.
Qed.

(** Up to [CV_CN_MAX] channels, only one, three or four are
    converted. *)
Lemma cvtColor_inr_channels `{E : Env} src a :
  ((shape src).2 <= CV_CN_MAX)%N ->
  cvtColor_BGR2RGB src = inr a ->
  (shape src).2 = 1%N \/ (shape src).2 = 3%N \/ (shape src).2 = 4%N.
Proof.
  unfold cvtColor_BGR2RGB. destruct src as [[[h w] c] d]. simpl. intros Hc H.
  destruct (_ =? 0)%N; [discriminate|].
  destruct (N.ltb_spec CV_CN_MAX c) as [|_]; [lia|].
  destruct (N.eqb_spec c 1); [auto|].
  destruct (N.eqb_spec c 3); [auto|].
  destruct (N.eqb_spec c 4); [auto|]. discriminate.
Qed.

Lemma cvtColor_channels `{E : Env} h w c d :
  (h * w * c)%N <> 0%N ->
  cvtColor_BGR2RGB {| shape := (h, w, c); data := d |} =
    if (CV_CN_MAX <? c)%N then cvtColor_wide {| shape := (h, w, c); data := d |}
    else if (c =? 1)%N then inr {| shape := (h, w, 3%N); data := gray_to_rgb d |}
    else if (c =? 3)%N then inr {| shape := (h, w, 3%N); data := swap_rb3 d |}
    else if (c =? 4)%N then inr {| shape := (h, w, 3%N); data := swap_rb4 d |}
    else inl cv2_error.
Proof.
  intros H. unfold cvtColor_BGR2RGB. simpl.
  destruct (N.eqb_spec (h * w * c) 0); [done|]. reflexivity.
Qed.

(** Every frame a callback hands to [process_image] has three channels
    and a buffer of matching length. *)
Lemma decode_consistent `{E : Env} msg a :
  decode msg = inr a -> (shape a).2 = 3%N /\ consistent a.
Proof.
  destruct msg as [image|image]; simpl.
  - destruct (reshape _ _ _) as [|a0] eqn:Hr; [discriminate|].
    apply reshape_inr in Hr as (_ & -> & Hn). intros H.
    apply cvtColor_inr in H as (Hs & Hc); [|exact Hn].
    rewrite Hs. auto.
  - destruct (sensor_msgs.c_data image) as [|c0 buf]; [discriminate|].
    destruct (imdecode _) as [a0|] eqn:Hi; [|discriminate].
    apply imdecode_consistent in Hi. intros H.
    apply cvtColor_inr in H as (Hs & Hc); [|exact Hi].
    rewrite Hs. auto.
Qed.

(** C4, as amended. A raw frame of at least one pixel whose payload has
    three bytes per pixel is decoded: the callback stores, as the held
    frame, an array of the announced height and width with three
    channels, whose pixels are those of the payload with the first and
    third byte exchanged (BGR in, RGB out). The 2 by 2 frame of the
    specification decodes to the buffer it names. *)
Theorem C4_raw_decode_rgb `{E : Env} (image : sensor_msgs.Image) (s : State) :
  let h := sensor_msgs.height image in
  let w := sensor_msgs.width image in
  let payload := sensor_msgs.data image in
  (0 < h)%N -> (0 < w)%N ->
  N.of_nat (length payload) = (h * w * 3)%N ->
  let a := {| shape := (h, w, 3%N); data := swap_rb3 payload |} in
  decode (Raw image) = inr a /\
  consistent a /\
  (forall i, 3 * i + 2 < length payload ->
     data a !! (3 * i) = payload !! (3 * i + 2) /\
     data a !! (3 * i + 1) = payload !! (3 * i + 1) /\
     data a !! (3 * i + 2) = payload !! (3 * i)) /\
  (exists l, color_image (self (image_callback image s).2) = Some l /\
             heap (image_callback image s).2 !! l = Some a) /\
  decode (Raw (Sample.raw_image 2 2
                 ["000"; "000"; "255"; "000"; "255"; "000";
                  "255"; "000"; "000"; "255"; "255"; "255"]%byte)) =
    inr {| shape := (2%N, 2%N, 3%N);
           data := ["255"; "000"; "000"; "000"; "255"; "000";
                    "000"; "000"; "255"; "255"; "255"; "255"]%byte |}.
Proof.
  intros h w payload Hh Hw Hn a.
  assert (Hdec : decode (Raw image) = inr a).
  { simpl. fold h w payload. rewrite (reshape_fits payload h w 3) by (done || lia).
    rewrite cvtColor_channels by lia. reflexivity. }
  split; [exact Hdec|]. split.
  { apply (decode_consistent _ _ Hdec). }
  split; [intros i Hi; apply (swap_rb3_lookup i payload Hi)|].
  split; [|reflexivity].
  destruct (on_frame_run (Raw image) s) as (s' & Hrun & _ & _ & _ & _ & Hheld).
  simpl on_frame in Hrun. rewrite Hrun. simpl. apply Hheld, Hdec.
Qed.

Lemma C4_raw_decode_rgb_witness :
  let image := Sample.raw_image 1 2 ["010"; "020"; "030"; "040"; "050"; "060"]%byte in
  let E := Sample.script Sample.no_detections Sample.no_detections in
  decode (Raw image) =
    inr {| shape := (1%N, 2%N, 3%N);
           data := ["030"; "020"; "010"; "060"; "050"; "040"]%byte |}.
Proof.
  intros image E.
  apply (C4_raw_decode_rgb (E := E) image (initial_state Sample.quiet));
    vm_compute; reflexivity.
Defined.

(** C4 fails as stated: a frame of height 0 and width 0 with an empty
    payload has payload length height x width x 3, and is refused by
    [reshape]. *)
Lemma C4_empty_frame_refused :
  let image := Sample.raw_image 0 0 [] in
  let E := Sample.script Sample.no_detections Sample.no_detections in
  N.of_nat (length (sensor_msgs.data image)) =
    (sensor_msgs.height image * sensor_msgs.width image * 3)%N /\
  decode (Raw image) = inl ValueError /\
  (image_callback image (initial_state Sample.quiet)).1 = inl ValueError.
Proof. vm_compute. auto. Qed.





(** ** The shape of a pass *)

Lemma make_BoundingBox_inr r0 b boundingBox :
  make_BoundingBox r0 b = inr boundingBox ->
  exists name,
    names r0 !! cls b = Some name /\ boundingBox = box_of b name /\
    in_int64 (Qtruncate (xyxy b).1.1.1) = true /\
    in_int64 (Qtruncate (xyxy b).1.1.2) = true /\
    in_int64 (Qtruncate (xyxy b).1.2) = true /\
    in_int64 (Qtruncate (xyxy b).2) = true.
Proof.
  unfold make_BoundingBox, np_int64, box_of.
  destruct (xyxy b) as [[[x1 y1] x2] y2]. simpl.
  destruct (in_int64 (Qtruncate x1)); [|discriminate].
  destruct (in_int64 (Qtruncate y1)); [|discriminate].
  destruct (in_int64 (Qtruncate x2)); [|discriminate].
  destruct (in_int64 (Qtruncate y2)); [|discriminate].
  destruct (names r0 !! cls b) as [name|]; [|discriminate].
  intros [= <-]. exists name. repeat split; reflexivity.
Qed.

Lemma built_lookup r0 bs : forall l i b,
  built r0 bs = inr l -> bs !! i = Some b ->
  exists boundingBox,
    make_BoundingBox r0 b = inr boundingBox /\ l !! i = Some boundingBox.
Proof.
  induction bs as [|b0 bs IH]; intros l i b H Hi; [discriminate|].
  simpl in H.
  destruct (make_BoundingBox r0 b0) as [|bb0] eqn:Hm; [discriminate|].
  destruct (built r0 bs) as [|l0] eqn:Hb; [discriminate|].
  injection H as <-. destruct i as [|i]; simpl in *.
  - injection Hi as <-. eauto.
  - eapply IH; eauto.
Qed.

Section Passes.
Context {E : Env}.

Lemma annotate_built r0 rest D img :
  built r0 (boxes r0) = inr D -> annotate (r0 :: rest) img = draw_all D img.
Proof. intros H. unfold annotate. simpl. apply draw_boxes_built, H. Qed.

(** When every box is built and drawn, the loop makes the two drawing
    calls of each box, box after box. *)
Lemma draw_boxes_events_built r0 bs : forall l,
  built r0 bs = inr l -> forallb drawable l = true ->
  draw_boxes_events r0 bs = drawing_calls l.
Proof.
  induction bs as [|b bs IH]; simpl; intros l H Hd.
  - injection H as <-. reflexivity.
  - destruct (make_BoundingBox r0 b) as [|bb]; [discriminate|].
    destruct (built r0 bs) as [|l']; [discriminate|].
    injection H as <-. simpl in Hd. apply andb_true_iff in Hd as [Hb Hl].
    unfold draw_events. unfold drawable in Hb. rewrite Hb.
    apply andb_true_iff in Hb as [Hb _]. rewrite Hb. simpl.
    f_equal. f_equal. apply IH; auto.
Qed.

(** However the loop ends, its drawing calls are an initial part of
    those of the boxes it builds. *)
Lemma draw_boxes_events_prefix r0 bs : forall l,
  built r0 bs = inr l -> draw_boxes_events r0 bs `prefix_of` drawing_calls l.
Proof.
  induction bs as [|b bs IH]; simpl; intros l H.
  - injection H as <-. reflexivity.
  - destruct (make_BoundingBox r0 b) as [|bb]; [discriminate|].
    destruct (built r0 bs) as [|l']; [discriminate|].
    injection H as <-. unfold draw_events.
    change (drawing_calls (bb :: l'))
      with (rectangle_call bb :: putText_call bb :: drawing_calls l').
    destruct (fits_point (xmin bb, ymin bb) && fits_point (xmax bb, ymax bb));
      simpl.
    + apply prefix_cons, prefix_cons.
      destruct (fits_point _); [apply IH; reflexivity | apply prefix_nil].
    + apply prefix_cons, prefix_nil.
Qed.

Lemma filter_all {A : Type} (P : A -> bool) (l : list A) :
  Forall (fun x => P x = true) l -> filter P l = l.
Proof.
  induction 1 as [|x l Hx _ IH]; [reflexivity|].
  rewrite filter_cons_True by (rewrite Hx; exact I). rewrite IH. reflexivity.
Qed.

Lemma draw_boxes_events_drawing r0 bs :
  Forall (fun ev => is_drawing ev = true) (draw_boxes_events r0 bs).
Proof.
  induction bs as [|b bs IH]; simpl; [constructor|].
  destruct (make_BoundingBox r0 b) as [|bb]; [constructor|].
  unfold draw_events. constructor; [reflexivity|].
  apply Forall_app. split.
  - destruct (_ && _); repeat constructor.
  - destruct (_ && _ && _); [exact IH | constructor].
Qed.

Lemma annotate_events_drawing results :
  Forall (fun ev => is_drawing ev = true) (annotate_events results).
Proof.
  unfold annotate_events. destruct (first_result results); [constructor|].
  apply draw_boxes_events_drawing.
Qed.

(** What a pass emits: the detector calls, then drawing calls, then
    nothing more or the image followed by the display calls. *)
Lemma frame_outcome_events o t a :
  exists drawing tail,
    (frame_outcome o t a).2 = inference_calls o (inr a) ++ drawing ++ tail /\
    Forall (fun ev => is_drawing ev = true) drawing /\
    ((tail = [] /\ exists e, (frame_outcome o t a).1 = inl e) \/
     exists results1 results2 f1 f2,
       predict (model1 o) a false (3 # 10) = inr results1 /\
       predict (model2 o) a false (3 # 10) = inr results2 /\
       annotate results1 (np_copy a) = inr f1 /\
       annotate results2 f1 = inr f2 /\
       (frame_outcome o t a).1 = (display o f2).1 /\
       tail = image_message o t (shape a).1.1 (shape a).1.2 f2
              :: (display o f2).2).
Proof.
  unfold frame_outcome, inference_calls.
  destruct (predict (model1 o) a false (3 # 10)) as [e|rs1].
  { exists [], []. split; [reflexivity|]. split; [constructor|].
    left. split; [reflexivity|]. eexists. reflexivity. }
  destruct (predict (model2 o) a false (3 # 10)) as [e|rs2].
  { exists [], []. split; [reflexivity|]. split; [constructor|].
    left. split; [reflexivity|]. eexists. reflexivity. }
  destruct (annotate rs1 (np_copy a)) as [e|f1] eqn:H1.
  { exists (annotate_events rs1), []. split; [simpl; rewrite app_nil_r; reflexivity|].
    split; [apply annotate_events_drawing|].
    left. split; [reflexivity|]. eexists. reflexivity. }
  destruct (annotate rs2 f1) as [e|f2] eqn:H2.
  { exists (annotate_events rs1 ++ annotate_events rs2), [].
    split; [simpl; rewrite app_nil_r; reflexivity|].
    split; [apply Forall_app; split; apply annotate_events_drawing|].
    left. split; [reflexivity|]. eexists. reflexivity. }
  exists (annotate_events rs1 ++ annotate_events rs2),
    (image_message o t (shape a).1.1 (shape a).1.2 f2 :: (display o f2).2).
  split; [simpl; rewrite <- app_assoc; reflexivity|].
  split; [apply Forall_app; split; apply annotate_events_drawing|].
  right. exists rs1, rs2, f1, f2. repeat split; (reflexivity || assumption).
Qed.

Lemma display_events o f :
  Forall (fun ev => is_display ev = true) (display o f).2.
Proof.
  unfold display. destruct (visualize o); [|constructor].
  destruct (imshow _ f); [repeat constructor|].
  destruct (waitKey 1); repeat constructor.
Qed.

(** Every publication of a pass is the image of the frame with the
    boxes of both answers drawn. *)
Lemma frame_outcome_publication o t a ev :
  ev ∈ (frame_outcome o t a).2 -> is_publication ev = true ->
  exists results1 results2 f1 f2,
    predict (model1 o) a false (3 # 10) = inr results1 /\
    predict (model2 o) a false (3 # 10) = inr results2 /\
    annotate results1 (np_copy a) = inr f1 /\
    annotate results2 f1 = inr f2 /\
    ev = image_message o t (shape a).1.1 (shape a).1.2 f2.
Proof.
  destruct (frame_outcome_events o t a) as (dr & tl & -> & Hdr & Htl).
  rewrite !elem_of_app. intros [Hin|[Hin|Hin]] Hpub.
  - unfold inference_calls in Hin.
    apply elem_of_cons in Hin as [->|Hin]; [discriminate|].
    destruct (predict (model1 o) a false (3 # 10)).
    + apply elem_of_nil in Hin. done.
    + apply list_elem_of_singleton in Hin. subst. discriminate.
  - rewrite Forall_forall in Hdr. apply Hdr in Hin.
    destruct ev; discriminate.
  - destruct Htl as [[-> _]|(rs1 & rs2 & f1 & f2 & H1 & H2 & H3 & H4 & _ & ->)].
    { apply elem_of_nil in Hin. done. }
    apply elem_of_cons in Hin as [->|Hin]; [eauto 10|].
    pose proof (display_events o f2) as Hd. rewrite Forall_forall in Hd.
    apply Hd in Hin. destruct ev; discriminate.
Qed.

Lemma callback_outcome_publication o t msg ev :
  ev ∈ (callback_outcome o t msg).2 -> is_publication ev = true ->
  exists a results1 results2 f1 f2,
    decode msg = inr a /\
    predict (model1 o) a false (3 # 10) = inr results1 /\
    predict (model2 o) a false (3 # 10) = inr results2 /\
    annotate results1 (np_copy a) = inr f1 /\
    annotate results2 f1 = inr f2 /\
    ev = image_message o t (shape a).1.1 (shape a).1.2 f2.
Proof.
  unfold callback_outcome. destruct (decode msg) as [|a].
  { intros Hin. apply elem_of_nil in Hin. done. }
  intros Hin Hpub.
  destruct (frame_outcome_publication o t a ev Hin Hpub)
    as (rs1 & rs2 & f1 & f2 & H). exists a, rs1, rs2, f1, f2. tauto.
Qed.
End Passes.

(** ** One pass over a frame *)

(** C5. Whatever the detectors answer and however the pass ends,
    [process_image] leaves the decoded frame as it found it: after the
    pass [self.color_image] still names the same array with the same
    shape and bytes, and so does every other array the store held when
    the pass began. Rectangles and labels are written into the array
    that [copy()] allocated, which is none of them. *)
Theorem C5_input_buffer_unchanged `{E : Env} (s : State) (l : loc) (a : ndarray) :
  color_image (self s) = Some l ->
  heap s !! l = Some a ->
  let s' := (process_image s).2 in
  color_image (self s') = Some l /\
  heap s' !! l = Some a /\
  (forall l', is_Some (heap s !! l') -> heap s' !! l' = heap s !! l').
Proof.
  intros Hc Hl s'.
  destruct (process_image_run s l a Hc Hl) as (s1 & Hrun & _ & Hself & _ & Hheap).
  subst s'. rewrite Hrun. simpl. rewrite Hself. split; [exact Hc|].
  split; [|exact Hheap]. rewrite Hheap by eauto. exact Hl.
Qed.

Lemma C5_input_buffer_unchanged_witness :
  let E := Sample.script Sample.one_person Sample.one_person in
  let s := Sample.holding Sample.quiet Sample.rgb_2x2 in
  heap (process_image s).2 !! 1%positive = Some Sample.rgb_2x2.
Proof.
  intros E s.
  exact (proj1 (proj2 (C5_input_buffer_unchanged (E := E) s 1%positive
                         Sample.rgb_2x2 eq_refl eq_refl))).
Defined.


(** C3. On a frame for which model 1 answers the boxes of [r1] and
    model 2 those of [r2], let [D1] and [D2] be the [BoundingBox]
    objects the two calls of [handle_results] build. The pass works
    through [MergedResult D1 D2], the concatenation, entry by entry: it
    has as many entries as the two answers together; entry [i] is the
    box of detection [i] of model 1 and entry [n1 + j] the box of
    detection [j] of model 2, each with the truncated corners, the
    class name and the confidence of its detection; the drawing calls
    the pass makes are the rectangle and the label of the entries in
    the order of the entries, from the first on, none left out and none
    moved; and when OpenCV can draw every entry, the calls are those of
    all the entries and the frame then published is the copy with
    exactly these entries drawn. *)
Theorem C3_merged_result_is_concatenation `{E : Env}
    (s : State) (l : loc) (a : ndarray)
    (r1 r2 : Results) (rest1 rest2 : list Results) (D1 D2 : list BoundingBox) :
  color_image (self s) = Some l ->
  heap s !! l = Some a ->
  predict (model1 (self s)) a false (3 # 10) = inr (r1 :: rest1) ->
  predict (model2 (self s)) a false (3 # 10) = inr (r2 :: rest2) ->
  built r1 (boxes r1) = inr D1 ->
  built r2 (boxes r2) = inr D2 ->
  let n1 := length (boxes r1) in
  let n2 := length (boxes r2) in
  let f := paint (covered (MergedResult D1 D2)) green a in
  length (MergedResult D1 D2) = n1 + n2 /\
  (forall i b, boxes r1 !! i = Some b ->
     exists name, names r1 !! cls b = Some name /\
                  MergedResult D1 D2 !! i = Some (box_of b name)) /\
  (forall j b, boxes r2 !! j = Some b ->
     exists name, names r2 !! cls b = Some name /\
                  MergedResult D1 D2 !! (n1 + j) = Some (box_of b name)) /\
  filter is_drawing (emitted process_image s)
    `prefix_of` drawing_calls (MergedResult D1 D2) /\
  (forallb drawable (MergedResult D1 D2) = true ->
   filter is_drawing (emitted process_image s) =
     drawing_calls (MergedResult D1 D2) /\
   emitted process_image s =
     [Predict (model1 (self s)) a false (3 # 10);
      Predict (model2 (self s)) a false (3 # 10)]
     ++ drawing_calls (MergedResult D1 D2)
     ++ image_message (self s) (now s) (shape a).1.1 (shape a).1.2 f
     :: (display (self s) f).2 /\
   (process_image s).1 = (display (self s) f).1).
Proof.
  intros Hc Hl Hp1 Hp2 HD1 HD2 n1 n2 f. subst f. unfold MergedResult in *.
  assert (Hn1 : length D1 = n1) by apply (built_length _ _ _ HD1).
  assert (Hn2 : length D2 = n2) by apply (built_length _ _ _ HD2).
  split; [rewrite length_app; lia|]. split.
  { intros i b Hi. destruct (built_lookup _ _ _ _ _ HD1 Hi) as (bb & Hm & Hbb).
    apply make_BoundingBox_inr in Hm as (name & Hname & -> & _).
    exists name. split; [exact Hname|]. rewrite lookup_app_l; [exact Hbb|].
    apply lookup_lt_Some in Hbb. exact Hbb. }
  split.
  { intros j b Hj. destruct (built_lookup _ _ _ _ _ HD2 Hj) as (bb & Hm & Hbb).
    apply make_BoundingBox_inr in Hm as (name & Hname & -> & _).
    exists name. split; [exact Hname|].
    rewrite lookup_app_r by lia. rewrite Hn1.
    replace (n1 + j - n1) with j by lia. exact Hbb. }
  destruct (process_image_run s l a Hc Hl) as (s' & Hrun & Htr & _).
  assert (Hem : emitted process_image s = (frame_outcome (self s) (now s) a).2).
  { apply emitted_app. rewrite Hrun. exact Htr. }
  assert (Hcalls : forall l0, filter is_drawing (drawing_calls l0) = drawing_calls l0).
  { induction l0 as [|b0 l0 IH]; [reflexivity|].
    unfold drawing_calls in *. simpl. rewrite !filter_cons_True by reflexivity.
    rewrite IH. reflexivity. }
  assert (Hdisp : forall evs, Forall (fun ev => is_display ev = true) evs ->
                   filter is_drawing evs = []).
  { induction 1 as [|ev evs Hev _ IH]; [reflexivity|].
    rewrite filter_cons_False; [exact IH|]. destruct ev; simpl in *; auto; discriminate. }
  assert (Happ : drawing_calls (D1 ++ D2) = drawing_calls D1 ++ drawing_calls D2).
  { unfold drawing_calls. apply flat_map_app. }
  assert (Hpp : filter is_drawing
                  [Predict (model1 (self s)) a false (3 # 10);
                   Predict (model2 (self s)) a false (3 # 10)] = [])
    by reflexivity.
  pose proof (draw_boxes_events_prefix r1 _ D1 HD1) as Hpre1.
  pose proof (draw_boxes_events_prefix r2 _ D2 HD2) as Hpre2.
  pose proof (draw_boxes_events_drawing r1 (boxes r1)) as Hdr1.
  pose proof (draw_boxes_events_drawing r2 (boxes r2)) as Hdr2.
  split.
  { rewrite Hem. unfold frame_outcome. rewrite Hp1, Hp2.
    rewrite (annotate_built r1 rest1 D1) by done. rewrite draw_all_paint.
    change (annotate_events (r1 :: rest1)) with (draw_boxes_events r1 (boxes r1)).
    change (annotate_events (r2 :: rest2)) with (draw_boxes_events r2 (boxes r2)).
    rewrite Happ.
    destruct (forallb drawable D1) eqn:Hd1.
    - rewrite (draw_boxes_events_built r1 _ D1 HD1 Hd1) in *.
      rewrite (annotate_built r2 rest2 D2) by done. rewrite draw_all_paint.
      destruct (forallb drawable D2) eqn:Hd2; cbn [snd].
      + rewrite (draw_boxes_events_built r2 _ D2 HD2 Hd2).
        rewrite !filter_app, !Hcalls.
        rewrite (filter_cons_False _ (image_message _ _ _ _ _)) by (simpl; auto).
        rewrite (Hdisp _ (display_events _ _)), app_nil_r. reflexivity.
      + rewrite !filter_app, Hcalls, (filter_all _ _ Hdr2), Hpp, app_nil_l.
        apply prefix_app, Hpre2.
    - cbn [snd]. rewrite filter_app, (filter_all _ _ Hdr1), Hpp, app_nil_l.
      apply prefix_app_r, Hpre1. }
  intros Hdr.
  rewrite forallb_app in Hdr. apply andb_true_iff in Hdr as [Hd1 Hd2].
  assert (Hout : frame_outcome (self s) (now s) a =
    ((display (self s) (paint (covered (D1 ++ D2)) green a)).1,
     [Predict (model1 (self s)) a false (3 # 10);
      Predict (model2 (self s)) a false (3 # 10)]
     ++ drawing_calls (D1 ++ D2)
     ++ image_message (self s) (now s) (shape a).1.1 (shape a).1.2
          (paint (covered (D1 ++ D2)) green a)
     :: (display (self s) (paint (covered (D1 ++ D2)) green a)).2)).
  { unfold frame_outcome. rewrite Hp1, Hp2.
    rewrite (annotate_built r1 rest1 D1) by done.
    rewrite draw_all_paint, Hd1.
    rewrite (annotate_built r2 rest2 D2) by done.
    rewrite draw_all_paint, Hd2.
    assert (Hf : paint (covered D2) green (paint (covered D1) green (np_copy a)) =
                 paint (covered (D1 ++ D2)) green a).
    { rewrite paint_paint, np_copy_same. apply paint_ext.
      intros x y. symmetry. apply covered_app. }
    rewrite Hf.
    change (annotate_events (r1 :: rest1)) with (draw_boxes_events r1 (boxes r1)).
    change (annotate_events (r2 :: rest2)) with (draw_boxes_events r2 (boxes r2)).
    rewrite (draw_boxes_events_built r1 _ D1), (draw_boxes_events_built r2 _ D2)
      by assumption.
    rewrite Happ, <- !app_assoc. reflexivity. }
  rewrite Hem, Hrun, Hout. cbn [fst snd].
  split; [|split; reflexivity].
  rewrite !filter_app, Hcalls.
  rewrite (filter_cons_False _ (image_message _ _ _ _ _)) by (simpl; auto).
  rewrite (Hdisp _ (display_events _ _)), app_nil_r. reflexivity.
Qed.

Lemma C3_merged_result_is_concatenation_witness :
  let E := Sample.script Sample.one_person Sample.one_person in
  let s := Sample.holding Sample.quiet Sample.rgb_2x2 in
  let D := MergedResult [Sample.person_box] [Sample.person_box] in
  length D = 1 + 1 /\
  filter is_drawing (emitted process_image s) = drawing_calls D.
Proof.
  intros E s D.
  pose proof (C3_merged_result_is_concatenation (E := E) s 1%positive
                Sample.rgb_2x2 Sample.person_result Sample.person_result [] []
                [Sample.person_box] [Sample.person_box]
                eq_refl eq_refl eq_refl eq_refl eq_refl eq_refl) as H.
  exact (conj (proj1 H)
           (proj1 (proj2 (proj2 (proj2 (proj2 H))) eq_refl))).
Defined.

(** ** Detector failures *)

Lemma failed_pass `{E : Env} o t a e :
  predict (model1 o) a false (3 # 10) = inl e \/
  (exists results1,
     predict (model1 o) a false (3 # 10) = inr results1 /\
     predict (model2 o) a false (3 # 10) = inl e) ->
  (frame_outcome o t a).1 = inl e /\
  filter is_publication (frame_outcome o t a).2 = [].
Proof.
  unfold frame_outcome. intros [H1|(results1 & H1 & H2)].
  - rewrite H1. split; reflexivity.
  - rewrite H1, H2. split; reflexivity.
Qed.

(** C6, as amended. When the frame of a delivered message decodes to
    [a] and a detector call on [a] raises [e] (the first one, or the
    second after the first answered), the callback ends with [e] itself,
    not wrapped into anything; what it emitted
    holds no publication, neither detections nor image; the dispatch
    logs the error and [spin] goes on to return normally; and the
    messages that follow are handled exactly as if the failed one had
    never arrived. *)
Theorem C6_detector_failure_drops_frame `{E : Env}
    (s : State) (t : N) (msg : inbound) (rest : list (N * inbound))
    (a : ndarray) (e : Exn) :
  decode msg = inr a ->
  (predict (model1 (self s)) a false (3 # 10) = inl e \/
   exists results1,
     predict (model1 (self s)) a false (3 # 10) = inr results1 /\
     predict (model2 (self s)) a false (3 # 10) = inl e) ->
  (on_frame msg (set_now t s)).1 = inl e /\
  filter is_publication (emitted (on_frame msg) (set_now t s)) = [] /\
  (spin on_frame ((t, msg) :: rest) s).1 = inr tt /\
  exists evs,
    emitted (spin on_frame ((t, msg) :: rest)) s =
      evs ++ emitted (spin on_frame rest) s /\
    filter is_publication evs = [] /\
    last evs = Some (Logerr e).
Proof.
  intros Hdec Hfail.
  destruct (failed_pass (self s) t a e Hfail) as [Hres Hpub].
  assert (Hout : callback_outcome (self s) t msg = frame_outcome (self s) t a).
  { unfold callback_outcome. rewrite Hdec. reflexivity. }
  destruct (on_frame_run msg (set_now t s)) as (s1 & Hrun & _).
  simpl self in Hrun. simpl now in Hrun. rewrite Hout in Hrun.
  split; [rewrite Hrun; exact Hres|].
  split; [rewrite emitted_on_frame; simpl; rewrite Hout; exact Hpub|].
  destruct (spin_run ((t, msg) :: rest) s) as (s2 & Hspin & _).
  split; [rewrite Hspin; reflexivity|].
  exists ((frame_outcome (self s) t a).2 ++ [Logerr e]).
  rewrite !emitted_spin. simpl spin_events. rewrite Hout, Hres. simpl logged.
  split; [rewrite <- app_assoc; reflexivity|]. split.
  - rewrite filter_app, Hpub. reflexivity.
  - apply last_snoc.
Qed.

Lemma C6_detector_failure_drops_frame_witness :
  let E := Sample.script Sample.one_person
             (inl (ModelInferenceError "CUDA out of memory")) in
  let msg := Raw (Sample.raw_image 1 1 ["010"; "020"; "030"]%byte) in
  let s := initial_state Sample.quiet in
  (on_frame msg (set_now 7 s)).1 = inl (ModelInferenceError "CUDA out of memory") /\
  filter is_publication (emitted (on_frame msg) (set_now 7 s)) = [] /\
  (spin on_frame [(7%N, msg); (8%N, msg)] s).1 = inr tt.
Proof.
  intros E msg s.
  pose proof (C6_detector_failure_drops_frame (E := E) s 7 msg [(8%N, msg)]
                {| shape := (1%N, 1%N, 3%N); data := ["030"; "020"; "010"]%byte |}
                (ModelInferenceError "CUDA out of memory")
                eq_refl (or_intror (ex_intro _ _ (conj eq_refl eq_refl)))) as H.
  exact (conj (proj1 H) (conj (proj1 (proj2 H)) (proj1 (proj2 (proj2 H))))).
Defined.

(** C6 fails as stated: when model 2 raises, the callback ends in the
    detector's own exception; it is not a [FusionError], whatever the
    cause wrapped. *)
Lemma C6_detector_exception_not_wrapped :
  let E := Sample.script Sample.one_person
             (inl (ModelInferenceError "CUDA out of memory")) in
  let msg := Raw (Sample.raw_image 1 1 ["010"; "020"; "030"]%byte) in
  let s := initial_state Sample.quiet in
  predict (model2 (self s))
    {| shape := (1%N, 1%N, 3%N); data := ["030"; "020"; "010"]%byte |}
    false (3 # 10) = inl (ModelInferenceError "CUDA out of memory") /\
  (on_frame msg s).1 = inl (ModelInferenceError "CUDA out of memory") /\
  forall cause, (on_frame msg s).1 <> inl (FusionError cause).
Proof.
  intros E msg s. split; [reflexivity|].
  assert (H : (on_frame msg s).1 = inl (ModelInferenceError "CUDA out of memory"))
    by (vm_compute; reflexivity).
  split; [exact H|]. intros cause. rewrite H. discriminate.
Qed.


(** ** Confidence thresholds *)

Lemma filter_none {A : Type} (P : A -> bool) (l : list A) :
  Forall (fun x => P x = false) l -> filter P l = [].
Proof.
  induction 1 as [|x l Hx _ IH]; [reflexivity|].
  rewrite filter_cons_False; [exact IH|]. rewrite Hx. auto.
Qed.

Lemma Forall_weaken {A : Type} (P Q : A -> Prop) (l : list A) :
  (forall x, P x -> Q x) -> Forall P l -> Forall Q l.
Proof. intros H. induction 1; constructor; auto. Qed.

Lemma drawing_not_predict evs :
  Forall (fun ev => is_drawing ev = true) evs -> filter is_predict evs = [].
Proof.
  intros H. apply filter_none. eapply Forall_weaken; [|exact H].
  intros ev Hev. destruct ev; simpl in *; auto; discriminate.
Qed.

Lemma display_not_predict evs :
  Forall (fun ev => is_display ev = true) evs -> filter is_predict evs = [].
Proof.
  intros H. apply filter_none. eapply Forall_weaken; [|exact H].
  intros ev Hev. destruct ev; simpl in *; auto; discriminate.
Qed.

Lemma inference_calls_predict `{E : Env} o d :
  filter is_predict (inference_calls o d) = inference_calls o d.
Proof.
  unfold inference_calls. destruct d as [|a]; [reflexivity|].
  destruct (predict (model1 o) a false (3 # 10)); reflexivity.
Qed.

(** The detector calls of a callback are exactly those of
    [inference_calls]. *)
Lemma callback_outcome_predicts `{E : Env} o t msg :
  filter is_predict (callback_outcome o t msg).2 = inference_calls o (decode msg).
Proof.
  unfold callback_outcome. destruct (decode msg) as [e|a]; [reflexivity|].
  destruct (frame_outcome_events o t a) as (dr & tl & -> & Hdr & Htl).
  rewrite !filter_app, inference_calls_predict, (drawing_not_predict dr Hdr).
  destruct Htl as [[-> _]|(rs1 & rs2 & f1 & f2 & _ & _ & _ & _ & _ & ->)].
  - simpl. rewrite app_nil_r. reflexivity.
  - rewrite (filter_cons_False _ (image_message _ _ _ _ _)) by (simpl; auto).
    rewrite (display_not_predict _ (display_events o f2)).
    simpl. rewrite app_nil_r. reflexivity.
Qed.

Lemma inference_calls_floor `{E : Env} o d :
  Forall (floor_is_fixed o) (inference_calls o d).
Proof.
  unfold inference_calls. destruct d as [|a]; [constructor|].
  constructor; [repeat split; auto|].
  destruct (predict (model1 o) a false (3 # 10)); [constructor|].
  constructor; [repeat split; auto | constructor].
Qed.

Lemma callback_outcome_floor `{E : Env} o t msg :
  Forall (floor_is_fixed o) (callback_outcome o t msg).2.
Proof.
  apply Forall_forall. intros ev Hin.
  destruct ev as [m src sh c| | | | | |]; try exact I.
  assert (Hp : Predict m src sh c ∈ filter is_predict (callback_outcome o t msg).2).
  { apply list_elem_of_filter. split; [exact I | exact Hin]. }
  rewrite callback_outcome_predicts in Hp.
  pose proof (inference_calls_floor o (decode msg)) as Hf.
  rewrite Forall_forall in Hf. apply (Hf _ Hp).
Qed.

Lemma spin_events_floor `{E : Env} o arrivals :
  Forall (floor_is_fixed o) (spin_events o arrivals).
Proof.
  induction arrivals as [|[t msg] rest IH]; simpl; [constructor|].
  rewrite !Forall_app. split; [|split; [|exact IH]].
  - apply callback_outcome_floor.
  - destruct (callback_outcome o t msg).1; repeat constructor.
Qed.

(** C8. Whatever threshold is configured under [~conf] (0.5 when none
    is), [__init__] writes it into the [conf] attribute of each of the
    two models. On every frame that decodes, model 1 is called on the
    frame with [show=False] and the floor 0.3, and, when model 1
    answered, model 2 is called on the same frame with the same floor;
    these are all the detector calls of the frame, and over a whole run
    no detector call is made with another floor or another model: the
    floor does not depend on the configuration. *)
Theorem C8_inference_floor_is_fixed `{E : Env}
    (ps : Params.t) (arrivals : list (N * inbound))
    (msg : inbound) (s : State) :
  model_conf (model1 (init ps)) = Some (get_param (Params.conf ps) (5 # 10)) /\
  model_conf (model2 (init ps)) = Some (get_param (Params.conf ps) (5 # 10)) /\
  Forall (floor_is_fixed (init ps))
    (emitted (spin on_frame arrivals) (initial_state ps)) /\
  filter is_predict (emitted (on_frame msg) s) =
    inference_calls (self s) (decode msg).
Proof.
  split; [reflexivity|]. split; [reflexivity|]. split.
  - rewrite emitted_spin. apply spin_events_floor.
  - rewrite emitted_on_frame. apply callback_outcome_predicts.
Qed.

(** The floor and the configured threshold side by side on one run:
    with [~conf] set to 0.9 both models carry 0.9 and are called with
    0.3. *)
Example floor_with_conf_09 :
  let E := Sample.script Sample.no_detections Sample.no_detections in
  let ps := {| Params.weight_path := None; Params.image_topic := None;
               Params.pub_topic := None; Params.camera_frame := None;
               Params.use_compressed := None; Params.conf := Some (9 # 10);
               Params.visualize := Some false; Params.use_cpu := None |} in
  let msg := Raw (Sample.raw_image 1 1 ["010"; "020"; "030"]%byte) in
  map (fun ev => match ev with
                 | Predict m _ _ c => Some (model_conf m, c)
                 | _ => None
                 end)
      (filter is_predict (emitted (spin on_frame [(1%N, msg)]) (initial_state ps)))
  = [Some (Some (9 # 10), 3 # 10); Some (Some (9 # 10), 3 # 10)].
Proof. vm_compute. reflexivity. Qed.

(** ** The outbound image *)

Lemma image_message_fits `{E : Env} o t a results1 results2 f1 f2 :
  (shape a).2 = 3%N -> consistent a ->
  annotate results1 (np_copy a) = inr f1 ->
  annotate results2 f1 = inr f2 ->
  image_message_ok (inr a) (image_message o t (shape a).1.1 (shape a).1.2 f2).
Proof.
  intros Hch Hcons H1 H2.
  apply annotate_keeps in H1 as [Hs1 Hl1]. apply annotate_keeps in H2 as [Hs2 Hl2].
  unfold consistent in Hcons. destruct a as [[[h w] c] d].
  simpl in *. subst c. rewrite Hl2, Hl1, Hcons.
  repeat split; try lia. eauto.
Qed.

(** C9. Every image message a callback publishes has the encoding
    "rgb8", the height and width of the frame the callback decoded, a
    stride of three bytes per pixel of a row, and height x width x 3
    data bytes, which is height times stride. *)
Theorem C9_image_message_consistent `{E : Env} (msg : inbound) (s : State) :
  Forall (image_message_ok (decode msg)) (emitted (on_frame msg) s).
Proof.
  rewrite emitted_on_frame. apply Forall_forall. intros ev Hin.
  destruct ev as [| p m | | | | |]; try exact I.
  destruct (callback_outcome_publication _ _ _ _ Hin eq_refl)
    as (a & rs1 & rs2 & f1 & f2 & Hdec & _ & _ & H1 & H2 & Hev).
  rewrite Hev, Hdec. apply decode_consistent in Hdec as [Hch Hcons].
  eapply image_message_fits; eassumption.
Qed.

(** On the four-channel frame of 1 by 1 the published image has three
    data bytes and a stride of three. *)
Example image_message_of_four_channel_frame :
  let E := Sample.script Sample.no_detections Sample.no_detections in
  let msg := Raw (Sample.raw_image 1 1 ["010"; "020"; "030"; "040"]%byte) in
  filter is_publication (emitted (on_frame msg) (initial_state Sample.quiet)) =
  [Publish {| pub_name := "/yolov8/detection_image"; pub_queue_size := 1 |}
     (ImageMsg
        {| sensor_msgs.header :=
             {| std_msgs.stamp := 0; std_msgs.frame_id := "camera" |};
           sensor_msgs.height := 1; sensor_msgs.width := 1;
           sensor_msgs.encoding := "rgb8"; sensor_msgs.is_bigendian := 0;
           sensor_msgs.step := 3;
           sensor_msgs.data := ["030"; "020"; "010"]%byte |})].
Proof. vm_compute. reflexivity. Qed.

(** ** Box coordinates and confidence *)

Lemma Qtruncate_truncated (x : Q) : truncated x (Qtruncate x).
Proof.
  destruct x as [n d]. unfold truncated, Qtruncate, Qle, Qlt, Qplus, Qminus,
    Qopp, inject_Z. simpl.
  pose proof (Z.quot_rem' n (Z.pos d)) as Hqr.
  set (q := Z.quot n (Z.pos d)) in *. set (r := Z.rem n (Z.pos d)) in *.
  split; intros Hx.
  - assert (0 <= n)%Z by lia.
    pose proof (Z.rem_bound_pos_pos n (Z.pos d) ltac:(lia) ltac:(lia)) as Hr.
    fold r in Hr. nia.
  - assert (n <= 0)%Z by lia.
    pose proof (Z.rem_bound_pos_neg n (Z.pos d) ltac:(lia) ltac:(lia)) as Hr.
    fold r in Hr. nia.
Qed.

Lemma Qtruncate_in_int64 (x : Q) :
  in_int64_range x -> in_int64 (Qtruncate x) = true.
Proof.
  intros [Hlo Hhi]. pose proof (Qtruncate_truncated x) as [Hpos Hneg].
  unfold in_int64. apply andb_true_iff. rewrite !Z.leb_le.
  destruct (Qlt_le_dec x 0) as [Hx|Hx].
  - destruct (Hneg (Qlt_le_weak _ _ Hx)) as [H1 H2]. split.
    + rewrite Zle_Qle. eapply Qle_trans; eassumption.
    + assert (inject_Z (Qtruncate x) - 1 < inject_Z 0)%Q as H
        by (eapply Qlt_trans; eassumption).
      unfold Qlt, Qminus, Qplus, inject_Z in H. simpl in H.
      unfold INT64_MAX. lia.
  - destruct (Hpos Hx) as [H1 H2]. split.
    + assert (inject_Z 0 <= x)%Q as H0 by exact Hx.
      assert (inject_Z 0 < inject_Z (Qtruncate x) + 1)%Q as H
        by (eapply Qle_lt_trans; eassumption).
      unfold Qlt, Qplus, inject_Z in H. simpl in H. unfold INT64_MIN. lia.
    + rewrite Zle_Qle. eapply Qle_trans; eassumption.
Qed.

Lemma np_int64_in_range (x : Q) :
  in_int64_range x -> np_int64 x = inr (Qtruncate x).
Proof. intros H. unfold np_int64. rewrite (Qtruncate_in_int64 x H). reflexivity. Qed.



(** ** The detections topic *)

Lemma callback_outcome_no_detections `{E : Env} o t msg :
  Forall (fun ev => is_detections_message ev = false) (callback_outcome o t msg).2.
Proof.
  apply Forall_forall. intros ev Hin.
  destruct ev as [| p [m|m] | | | | |]; try reflexivity.
  destruct (callback_outcome_publication _ _ _ _ Hin eq_refl)
    as (a & rs1 & rs2 & f1 & f2 & _ & _ & _ & _ & _ & Hev).
  discriminate.
Qed.

Lemma spin_events_no_detections `{E : Env} o arrivals :
  Forall (fun ev => is_detections_message ev = false) (spin_events o arrivals).
Proof.
  induction arrivals as [|[t msg] rest IH]; simpl; [constructor|].
  rewrite !Forall_app. split; [|split; [|exact IH]].
  - apply callback_outcome_no_detections.
  - destruct (callback_outcome o t msg).1; repeat constructor.
Qed.

(** No run of the node hands anything to [position_pub]: the boxes
    [handle_results] builds are drawn and dropped. *)
Lemma detections_never_published `{E : Env} arrivals s :
  filter is_detections_message (emitted (spin on_frame arrivals) s) = [].
Proof.
  rewrite emitted_spin. apply filter_none, spin_events_no_detections.
Qed.

(** A pass on which neither model finds a box publishes the decoded
    frame as it is. *)
Lemma empty_pass `{E : Env} o t a r1 r2 rest1 rest2 :
  predict (model1 o) a false (3 # 10) = inr (r1 :: rest1) ->
  predict (model2 o) a false (3 # 10) = inr (r2 :: rest2) ->
  boxes r1 = [] -> boxes r2 = [] ->
  filter is_publication (frame_outcome o t a).2 =
    [image_message o t (shape a).1.1 (shape a).1.2 a].
Proof.
  intros H1 H2 Hb1 Hb2. unfold frame_outcome, annotate, annotate_events.
  rewrite H1, H2. simpl. rewrite Hb1. simpl. rewrite Hb2. simpl.
  rewrite np_copy_same.
  rewrite (filter_cons_False _ (Predict (model1 o) _ _ _)) by (simpl; auto).
  rewrite (filter_cons_False _ (Predict (model2 o) _ _ _)) by (simpl; auto).
  rewrite (filter_cons_True _ (image_message _ _ _ _ _)) by exact I.
  rewrite filter_none; [reflexivity|].
  eapply Forall_weaken; [|apply display_events].
  intros ev Hev. destruct ev; simpl in *; auto; discriminate.
Qed.

(** C1, on the code. A 2 by 2 frame decodes, model 1 finds one person
    and model 2 nothing, and the callback returns normally: it has
    published one image message and no detections message. *)
Theorem C1_successful_pass_publishes_image_only :
  let E := Sample.script Sample.one_person Sample.no_detections in
  let msg := Raw (Sample.raw_image 2 2
                    ["000"; "000"; "255"; "000"; "255"; "000";
                     "255"; "000"; "000"; "255"; "255"; "255"]%byte) in
  let s := initial_state Sample.quiet in
  decode msg = inr Sample.rgb_2x2 /\
  (on_frame msg s).1 = inr tt /\
  length (filter is_predict (emitted (on_frame msg) s)) = 2 /\
  length (filter is_image_message (emitted (on_frame msg) s)) = 1 /\
  length (filter is_detections_message (emitted (on_frame msg) s)) = 0.
Proof. vm_compute. repeat split. Qed.

(** C7, on the code. On a 2 by 2 frame on which both models find
    nothing, the callback returns normally and the one message it
    publishes is the image, whose bytes are those of the decoded frame;
    no detections message, empty or not, is published. *)
Theorem C7_empty_pass_publishes_image_only :
  let E := Sample.script Sample.no_detections Sample.no_detections in
  let msg := Raw (Sample.raw_image 2 2
                    ["000"; "000"; "255"; "000"; "255"; "000";
                     "255"; "000"; "000"; "255"; "255"; "255"]%byte) in
  let s := initial_state Sample.quiet in
  decode msg = inr Sample.rgb_2x2 /\
  (on_frame msg s).1 = inr tt /\
  filter is_publication (emitted (on_frame msg) s) =
    [image_message (self s) (now s) 2 2 Sample.rgb_2x2] /\
  filter is_detections_message (emitted (on_frame msg) s) = [].
Proof. vm_compute. repeat split. Qed.

(** ** Drawing, sample by sample *)

Section Overlays.
Context {E : Env}.

(** X8. Drawing a sequence of boxes fails exactly when one of them has
    a point OpenCV cannot read; otherwise the result has the shape of
    the frame, every sample of a pixel covered by the rectangle or the
    label of some box holds the green of its channel, and every other
    sample is the frame's. *)
Theorem X8_draw_all_paints_covered (l : list BoundingBox) (img : ndarray) :
  draw_all l img =
    (if forallb drawable l
     then inr (paint (covered l) green img)
     else inl cv2_error) /\
  shape (paint (covered l) green img) = shape img /\
  forall i,
    data (paint (covered l) green img) !! i =
    (fun b => if covered l (sample_column (shape img) i) (sample_row (shape img) i)
              then nth (sample_channel (shape img) i) green "000"%byte
              else b) <$> data img !! i.
Proof.
  split; [apply draw_all_paint|].
  split; [apply paint_shape | intros i; apply paint_lookup].
Qed.

(** X9. The annotated frame does not depend on the order in which the
    boxes are drawn: every overlay is written in the same green, so any
    rearrangement of the boxes, such as model 2's before model 1's, ends
    in the same frame or fails alike. *)
Theorem X9_draw_order_irrelevant (l l' : list BoundingBox) (img : ndarray) :
  l ≡ₚ l' -> draw_all l img = draw_all l' img.
Proof.
  intros Hp. rewrite !draw_all_paint, (forallb_Permutation drawable l l' Hp).
  destruct (forallb drawable l'); [|reflexivity]. f_equal.
  apply paint_ext. intros x y. unfold covered.
  apply existsb_Permutation, Hp.
Qed.

(** X10. A frame is published whole or not at all: whenever a callback
    publishes an image, both detectors answered, every box of both
    answers was built and drawn, and the bytes published are those of
    the decoded frame with exactly the pixels that some box of either
    answer covers set to green. *)
Theorem X10_published_frame_fully_annotated (msg : inbound) (s : State) :
  Forall (fully_annotated (self s) (decode msg)) (emitted (on_frame msg) s).
Proof.
  rewrite emitted_on_frame. apply Forall_forall. intros ev Hin.
  destruct ev as [| p [m|m] | | | | |]; try exact I.
  destruct (callback_outcome_publication _ _ _ _ Hin eq_refl)
    as (a & rs1 & rs2 & f1 & f2 & Hdec & H1 & H2 & Ha1 & Ha2 & Hev).
  apply annotate_inr in Ha1 as (D1 & Hb1 & Hd1 & ->).
  apply annotate_inr in Ha2 as (D2 & Hb2 & Hd2 & ->).
  injection Hev as _ ->.
  exists a, rs1, rs2, D1, D2. repeat split; try assumption.
  - rewrite forallb_app, Hd1, Hd2. reflexivity.
  - simpl. rewrite paint_paint, np_copy_same. f_equal.
    apply paint_ext. intros x y. symmetry. apply covered_app.
Qed.
End Overlays.

Lemma X9_draw_order_irrelevant_witness :
  let E := Sample.script Sample.one_person Sample.no_detections in
  let other := {| probability := 1 # 2; xmin := 1; ymin := 1; xmax := 1;
                  ymax := 1; Class := "cat" |} in
  draw_all [Sample.person_box; other] Sample.rgb_2x2 =
  draw_all [other; Sample.person_box] Sample.rgb_2x2.
Proof.
  intros E other.
  apply (X9_draw_order_irrelevant (E := E)). apply Permutation_swap.
Defined.

(** ** Decoding, in full *)

Lemma swap_rb4_lookup (i : nat) : forall l : list byte,
  4 * i + 3 < length l ->
  swap_rb4 l !! (3 * i) = l !! (4 * i + 2) /\
  swap_rb4 l !! (3 * i + 1) = l !! (4 * i + 1) /\
  swap_rb4 l !! (3 * i + 2) = l !! (4 * i).
Proof.
  induction i as [|i IH]; intros l Hl.
  - destruct l as [|b [|g [|r [|x rest]]]]; simpl in Hl; try lia. auto.
  - destruct l as [|b [|g [|r [|x rest]]]]; simpl in Hl; try lia.
    replace (3 * S i) with (S (S (S (3 * i)))) by lia.
    replace (4 * S i) with (S (S (S (S (4 * i))))) by lia.
    simpl. apply IH. lia.
Qed.

(** X1. A raw frame whose payload has at most 512 bytes per pixel is
    decoded exactly when it has at least one pixel and its payload has
    one, three or four bytes per pixel: one byte is read as a gray
    level, three as BGR, four as BGR plus a fourth channel. Every other
    combination of height, width and payload length within that bound
    is refused. *)
Theorem X1_raw_decode_succeeds_iff `{E : Env} (image : sensor_msgs.Image) :
  let h := sensor_msgs.height image in
  let w := sensor_msgs.width image in
  let n := N.of_nat (length (sensor_msgs.data image)) in
  (n <= h * w * 512)%N ->
  ((exists a, decode (Raw image) = inr a) <->
   ((h * w)%N <> 0%N /\
    (n = (h * w)%N \/ n = (h * w * 3)%N \/ n = (h * w * 4)%N))).
Proof.
  intros h w n Hle. simpl. fold h w. split.
  - intros [a Ha].
    destruct (reshape _ h w) as [|a0] eqn:Hr; [discriminate|].
    apply reshape_inr in Hr as (Hhw & -> & Hn).
    fold n in Hn, Ha.
    apply cvtColor_inr_channels in Ha.
    + simpl in Ha. split; [exact Hhw|].
      destruct Ha as [Hc|[Hc|Hc]]; rewrite Hc in Hn; [left|right; left|right; right];
        lia.
    + simpl. unfold CV_CN_MAX. apply N.Div0.div_le_upper_bound. lia.
  - intros (Hhw & [Hn|[Hn|Hn]]).
    + rewrite (reshape_fits _ h w 1) by (done || fold n; lia).
      rewrite cvtColor_channels by lia. simpl. eauto.
    + rewrite (reshape_fits _ h w 3) by done.
      rewrite cvtColor_channels by lia. simpl. eauto.
    + rewrite (reshape_fits _ h w 4) by done.
      rewrite cvtColor_channels by lia. simpl. eauto.
Qed.

Lemma X1_raw_decode_succeeds_iff_witness :
  let E := Sample.script Sample.no_detections Sample.no_detections in
  let image := Sample.raw_image 1 3 ["010"; "020"; "030"]%byte in
  exists a, decode (Raw image) = inr a.
Proof.
  intros E image.
  apply (proj2 (X1_raw_decode_succeeds_iff (E := E) image ltac:(vm_compute; discriminate))).
  split; [vm_compute; discriminate|]. left. reflexivity.
Defined.

(** X2. A raw frame of at least one pixel with four bytes per pixel is
    taken as BGR plus a fourth channel: the decoded frame has three
    channels, pixel [i] holds bytes 2, 1 and 0 of source pixel [i], and
    the fourth byte of every pixel is dropped. *)
Theorem X2_four_channel_frame_decoded `{E : Env} (image : sensor_msgs.Image) :
  let h := sensor_msgs.height image in
  let w := sensor_msgs.width image in
  let payload := sensor_msgs.data image in
  (0 < h)%N -> (0 < w)%N ->
  N.of_nat (length payload) = (h * w * 4)%N ->
  let a := {| shape := (h, w, 3%N); data := swap_rb4 payload |} in
  decode (Raw image) = inr a /\
  N.of_nat (length (data a)) = (h * w * 3)%N /\
  forall i, 4 * i + 3 < length payload ->
    data a !! (3 * i) = payload !! (4 * i + 2) /\
    data a !! (3 * i + 1) = payload !! (4 * i + 1) /\
    data a !! (3 * i + 2) = payload !! (4 * i).
Proof.
  intros h w payload Hh Hw Hn a.
  assert (Hdec : decode (Raw image) = inr a).
  { simpl. fold h w payload. rewrite (reshape_fits payload h w 4) by (done || lia).
    unfold cvtColor_BGR2RGB. simpl.
    destruct (N.eqb_spec (h * w * 4) 0) as [|_]; [lia|]. reflexivity. }
  split; [exact Hdec|]. split.
  - apply (decode_consistent _ _ Hdec).
  - intros i Hi. apply (swap_rb4_lookup i payload Hi).
Qed.

Lemma X2_four_channel_frame_decoded_witness :
  let E := Sample.script Sample.no_detections Sample.no_detections in
  let image := Sample.raw_image 1 2
                 ["010"; "020"; "030"; "255"; "040"; "050"; "060"; "255"]%byte in
  decode (Raw image) =
    inr {| shape := (1%N, 2%N, 3%N);
           data := ["030"; "020"; "010"; "060"; "050"; "040"]%byte |}.
Proof.
  intros E image.
  refine (proj1 (X2_four_channel_frame_decoded (E := E) image _ _ _));
    vm_compute; reflexivity.
Defined.

(** ** What a callback leaves behind *)

Lemma frame_outcome_calls `{E : Env} o t a :
  exists rest,
    (frame_outcome o t a).2 = Predict (model1 o) a false (3 # 10) :: rest.
Proof.
  destruct (frame_outcome_events o t a) as (dr & tl & -> & _).
  unfold inference_calls. simpl. eauto.
Qed.

(** X3. For either kind of message, a callback emits nothing at all (no
    detector call, no publication, no display) exactly when decoding the
    message fails, and it then raises the decoding error; once decoding
    succeeds, model 1 is always called. *)
Theorem X3_nothing_emitted_iff_decode_fails `{E : Env} (msg : inbound) (s : State) :
  (emitted (on_frame msg) s = [] <-> exists e, decode msg = inl e) /\
  match decode msg with
  | inl e => (on_frame msg s).1 = inl e
  | inr a => exists rest,
      emitted (on_frame msg) s = Predict (model1 (self s)) a false (3 # 10) :: rest
  end.
Proof.
  rewrite emitted_on_frame.
  destruct (on_frame_run msg s) as (s' & Hrun & _).
  rewrite Hrun. unfold callback_outcome.
  destruct (decode msg) as [e|a]; simpl.
  - split; [|reflexivity]. split; eauto.
  - destruct (frame_outcome_calls (self s) (now s) a) as [rest Hrest].
    rewrite Hrest. split; [|eauto]. split; [discriminate|].
    intros [e He]. discriminate.
Qed.

(** X4. A callback looks at nothing a previous frame left behind: from
    two states of the node that agree on the configuration and on the
    clock, whatever frame each holds and whatever arrays each has in
    store, the same message ends the same way and emits the same
    events. *)
Theorem X4_frames_are_independent `{E : Env} (msg : inbound) (s1 s2 : State) :
  config (self s1) = config (self s2) ->
  now s1 = now s2 ->
  (on_frame msg s1).1 = (on_frame msg s2).1 /\
  emitted (on_frame msg) s1 = emitted (on_frame msg) s2.
Proof.
  intros Hc Hn. rewrite !emitted_on_frame.
  destruct (on_frame_run msg s1) as (s1' & -> & _).
  destruct (on_frame_run msg s2) as (s2' & -> & _).
  simpl. rewrite Hn, (callback_outcome_config _ _ _ _ Hc). auto.
Qed.

Lemma X4_frames_are_independent_witness :
  let E := Sample.script Sample.one_person Sample.no_detections in
  let msg := Raw (Sample.raw_image 1 1 ["010"; "020"; "030"]%byte) in
  emitted (on_frame msg) (initial_state Sample.quiet) =
  emitted (on_frame msg) (Sample.holding Sample.quiet Sample.rgb_2x2).
Proof.
  intros E msg.
  exact (proj2 (X4_frames_are_independent (E := E) msg
                  (initial_state Sample.quiet)
                  (Sample.holding Sample.quiet Sample.rgb_2x2)
                  eq_refl eq_refl)).
Defined.

(** ** The node over its whole run *)

Lemma filter_none_of {A : Type} (P Q : A -> bool) (l : list A) :
  (forall x, Q x = true -> P x = false) ->
  Forall (fun x => Q x = true) l -> filter P l = [].
Proof.
  intros H HF. apply filter_none. eapply Forall_weaken; [|exact HF]. auto.
Qed.

Lemma inference_calls_are_predicts `{E : Env} o d :
  Forall (fun ev => is_predict ev = true) (inference_calls o d).
Proof.
  unfold inference_calls. destruct d as [|a]; [constructor|].
  constructor; [reflexivity|].
  destruct (predict (model1 o) a false (3 # 10)); repeat constructor.
Qed.







(** Without a CUDA device and with [/use_cpu] unset, [main] ends in the
    library's error and handles no message. *)
Example main_without_device :
  let E := Sample.headless Sample.one_person Sample.no_detections in
  let ps := {| Params.weight_path := None; Params.image_topic := None;
               Params.pub_topic := None; Params.camera_frame := None;
               Params.use_compressed := None; Params.conf := None;
               Params.visualize := None; Params.use_cpu := None |} in
  main ps [(1%N, Raw (Sample.raw_image 1 1 ["010"; "020"; "030"]%byte))] =
    (inl (RuntimeError "no CUDA device"), []).
Proof. reflexivity. Qed.

(** With a display that cannot be opened, a frame is published and the
    callback still ends in an error: one message, one image and one
    logged error. *)
Example image_and_error_for_one_message :
  let E := Sample.headless Sample.no_detections Sample.no_detections in
  let ps := {| Params.weight_path := None; Params.image_topic := None;
               Params.pub_topic := None; Params.camera_frame := None;
               Params.use_compressed := None; Params.conf := None;
               Params.visualize := None; Params.use_cpu := Some true |} in
  let evs := (main ps [(1%N, Raw (Sample.raw_image 1 1 ["010"; "020"; "030"]%byte))]).2 in
  length (filter is_image_message evs) = 1 /\
  filter is_logerr evs = [Logerr cv2_error].
Proof. vm_compute. auto. Qed.

(** X6. Handling frames never changes the node's configuration: after
    any sequence of messages, from any state, the models with their
    [conf] attribute, the publishers, the subscription, the flags and
    the coordinate frame are what they were; only the held frame, the
    store, the clock and the trace move on. [spin] itself never
    raises. *)
Theorem X6_configuration_is_invariant `{E : Env}
    (arrivals : list (N * inbound)) (s : State) :
  (spin on_frame arrivals s).1 = inr tt /\
  config (self (spin on_frame arrivals s).2) = config (self s) /\
  trace (spin on_frame arrivals s).2 =
    trace s ++ emitted (spin on_frame arrivals) s.
Proof.
  rewrite emitted_spin.
  destruct (spin_run arrivals s) as (s' & -> & Htr & Hc). auto.
Qed.

(** X7. Both detectors are given the decoded frame itself, model 1
    first, with [show=False] and the floor 0.3. A callback whose message
    does not decode calls no detector. Otherwise model 1 is called on
    the decoded frame before anything else; when it raises, the callback
    ends with its exception and model 2 is never called; when it
    returns, model 2 is called next on the same frame, before any
    drawing, and no further detector call follows, so model 2 never
    sees the boxes of model 1 drawn. *)
Theorem X7_detectors_see_the_decoded_frame `{E : Env} (msg : inbound) (s : State) :
  match decode msg with
  | inl _ => emitted (on_frame msg) s = []
  | inr a =>
      let p1 := Predict (model1 (self s)) a false (3 # 10) in
      let p2 := Predict (model2 (self s)) a false (3 # 10) in
      match predict (model1 (self s)) a false (3 # 10) with
      | inl e =>
          emitted (on_frame msg) s = [p1] /\ (on_frame msg s).1 = inl e
      | inr _ =>
          exists rest,
            emitted (on_frame msg) s = p1 :: p2 :: rest /\
            filter is_predict rest = []
      end
  end.
Proof.
  rewrite emitted_on_frame.
  destruct (on_frame_run msg s) as (s' & -> & _).
  pose proof (callback_outcome_predicts (self s) (now s) msg) as Hp.
  unfold callback_outcome in *.
  destruct (decode msg) as [e|a]; [reflexivity|].
  destruct (predict (model1 (self s)) a false (3 # 10)) as [e|rs1] eqn:H1.
  { unfold frame_outcome. rewrite H1. auto. }
  destruct (frame_outcome_events (self s) (now s) a) as (dr & tl & Hev & _).
  rewrite Hev in Hp |- *. unfold inference_calls in *. rewrite H1 in *.
  exists (dr ++ tl). split; [reflexivity|].
  simpl in Hp.
  rewrite (filter_cons_True _ (Predict (model1 _) _ _ _)) in Hp by exact I.
  rewrite (filter_cons_True _ (Predict (model2 _) _ _ _)) in Hp by exact I.
  congruence.
Qed.

(** ** A class id without a name *)

Lemma make_BoundingBox_missing_name r0 b :
  in_int64_range (xyxy b).1.1.1 -> in_int64_range (xyxy b).1.1.2 ->
  in_int64_range (xyxy b).1.2 -> in_int64_range (xyxy b).2 ->
  names r0 !! cls b = None ->
  make_BoundingBox r0 b = inl KeyError.
Proof.
  unfold make_BoundingBox. destruct (xyxy b) as [[[x1 y1] x2] y2]. simpl.
  intros R1 R2 R3 R4 Hn. rewrite !np_int64_in_range by assumption.
  rewrite Hn. reflexivity.
Qed.

Lemma draw_boxes_missing_name `{E : Env} r0 pre b post : forall Dpre img,
  built r0 pre = inr Dpre ->
  forallb drawable Dpre = true ->
  make_BoundingBox r0 b = inl KeyError ->
  draw_boxes r0 (pre ++ b :: post) img = inl KeyError /\
  draw_boxes_events r0 (pre ++ b :: post) = drawing_calls Dpre.
Proof.
  induction pre as [|p pre IH]; intros Dpre img Hb Hd Hn; simpl.
  - rewrite Hn. injection Hb as <-. auto.
  - simpl in Hb. destruct (make_BoundingBox r0 p) as [|bb]; [discriminate|].
    destruct (built r0 pre) as [|l] eqn:Hl; [discriminate|].
    injection Hb as <-. simpl in Hd. apply andb_true_iff in Hd as [Hd1 Hd2].
    rewrite draw_drawable, Hd1.
    destruct (IH l (paint (box_cover bb) green img) eq_refl Hd2 Hn) as [-> ->].
    split; [reflexivity|].
    unfold draw_events. unfold drawable in Hd1. rewrite Hd1.
    apply andb_true_iff in Hd1 as [-> _]. reflexivity.
Qed.

(** X11. When a box of model 1's answer has coordinates an [int64]
    holds and a class id that the answer's name table lacks, and the
    boxes before it were built and drawn, the callback raises
    [KeyError] after both detectors have answered and the boxes before
    it have been drawn, makes no drawing call for the box, and
    publishes nothing for the frame. *)
Theorem X11_missing_class_name_drops_frame `{E : Env}
    (msg : inbound) (s : State) (a : ndarray)
    (r1 : Results) (rest1 results2 : list Results)
    (pre post : list Box) (b : Box) (Dpre : list BoundingBox) :
  decode msg = inr a ->
  predict (model1 (self s)) a false (3 # 10) = inr (r1 :: rest1) ->
  predict (model2 (self s)) a false (3 # 10) = inr results2 ->
  boxes r1 = pre ++ b :: post ->
  built r1 pre = inr Dpre ->
  forallb drawable Dpre = true ->
  in_int64_range (xyxy b).1.1.1 ->
  in_int64_range (xyxy b).1.1.2 ->
  in_int64_range (xyxy b).1.2 ->
  in_int64_range (xyxy b).2 ->
  names r1 !! cls b = None ->
  (on_frame msg s).1 = inl KeyError /\
  emitted (on_frame msg) s =
    [Predict (model1 (self s)) a false (3 # 10);
     Predict (model2 (self s)) a false (3 # 10)] ++ drawing_calls Dpre.
Proof.
  intros Hdec H1 H2 Hbs Hb Hd R1 R2 R3 R4 Hn. rewrite emitted_on_frame.
  destruct (on_frame_run msg s) as (s' & -> & _).
  pose proof (make_BoundingBox_missing_name r1 b R1 R2 R3 R4 Hn) as Hm.
  unfold callback_outcome, frame_outcome, annotate, annotate_events.
  rewrite Hdec, H1, H2. simpl. rewrite Hbs.
  destruct (draw_boxes_missing_name r1 pre b post Dpre (np_copy a) Hb Hd Hm)
    as [-> ->].
  auto.
Qed.

Lemma X11_missing_class_name_drops_frame_witness :
  let unnamed := {| boxes := [ {| xyxy := (0, 0, 1, 1)%Q; cls := 7;
                                  conf := 8 # 10 |} ];
                    names := {[ 0%Z := "person" ]} |} in
  let E := Sample.script (inr [unnamed]) Sample.no_detections in
  let msg := Raw (Sample.raw_image 1 1 ["010"; "020"; "030"]%byte) in
  (on_frame msg (initial_state Sample.quiet)).1 = inl KeyError.
Proof.
  intros unnamed E msg.
  refine (proj1 (X11_missing_class_name_drops_frame (E := E) msg
                   (initial_state Sample.quiet)
                   {| shape := (1%N, 1%N, 3%N); data := ["030"; "020"; "010"]%byte |}
                   unnamed [] [Sample.empty_result] [] []
                   {| xyxy := (0, 0, 1, 1)%Q; cls := 7; conf := 8 # 10 |} []
                   _ _ _ _ _ _ _ _ _ _ _));
    first [reflexivity | split; vm_compute; discriminate].
Defined.

(** A corner an [int64] cannot hold ends line 83 in [OverflowError],
    before the class name is looked up. *)
Example overflowing_corner_raises :
  make_BoundingBox Sample.person_result
    {| xyxy := (inject_Z (10 ^ 19), 0, 1, 1)%Q; cls := 7; conf := 8 # 10 |} =
  inl OverflowError.
Proof. reflexivity. Qed.

(** ** Topic, header and display *)

(** X12. Every publication of a callback is an image handed to
    [image_pub], stamped with the time at which the callback runs and
    tagged with the configured coordinate frame. In a node built by
    [__init__] that publisher is the topic /yolov8/detection_image with
    a queue of one, whatever the parameters say, [~pub_topic] included,
    and the coordinate frame is [~camera_frame], empty by default. *)
Theorem X12_image_topic_and_header `{E : Env}
    (ps : Params.t) (msg : inbound) (s : State) :
  Forall (image_on_topic (self s) (now s)) (emitted (on_frame msg) s) /\
  image_pub (init ps) =
    {| pub_name := "/yolov8/detection_image"; pub_queue_size := 1 |} /\
  camera_frame (init ps) = get_param (Params.camera_frame ps) ""%string.
Proof.
  split; [|split; reflexivity].
  rewrite emitted_on_frame. apply Forall_forall. intros ev Hin.
  destruct ev as [| p [m|m] | | | | |]; try exact I.
  - destruct (callback_outcome_publication _ _ _ _ Hin eq_refl)
      as (a & rs1 & rs2 & f1 & f2 & _ & _ & _ & _ & _ & Hev).
    injection Hev as -> ->. simpl. auto.
  - destruct (callback_outcome_publication _ _ _ _ Hin eq_refl)
      as (a & rs1 & rs2 & f1 & f2 & _ & _ & _ & _ & _ & Hev).
    discriminate.
Qed.

Lemma display_shown `{E : Env} o t h w f :
  shape f = (h, w, 3%N) ->
  (display o f).2 = shown o (image_message o t h w f).
Proof.
  intros Hs. unfold shown, image_message, display.
  assert (Hf : frame_of
                 {| sensor_msgs.header :=
                      {| std_msgs.stamp := t; std_msgs.frame_id := camera_frame o |};
                    sensor_msgs.height := h;
                    sensor_msgs.width := w;
                    sensor_msgs.encoding := "rgb8";
                    sensor_msgs.is_bigendian := 0%N;
                    sensor_msgs.data := data f;
                    sensor_msgs.step := (w * 3)%N |} = f).
  { apply ndarray_eq; [|reflexivity]. simpl. symmetry. exact Hs. }
  rewrite Hf. destruct (visualize o); [|reflexivity].
  destruct (imshow _ f); [reflexivity|].
  destruct (waitKey 1); reflexivity.
Qed.

(** X13. What a callback shows follows what it publishes. The events of
    a callback are a part without publication and without display call,
    and then either nothing more, or one published image followed at
    once, with [visualize] on, by the [imshow] of a frame with the
    height, width and bytes of that very message and, when [imshow]
    returned, by [waitKey(1)]. Nothing is shown before the image is
    published, a callback that publishes nothing shows nothing, and
    with [visualize] off nothing follows the image. *)
Theorem X13_display_follows_publication `{E : Env} (msg : inbound) (s : State) :
  exists pre,
    filter is_display pre = [] /\
    filter is_publication pre = [] /\
    (emitted (on_frame msg) s = pre \/
     exists p, is_publication p = true /\
       emitted (on_frame msg) s = pre ++ p :: shown (self s) p).
Proof.
  rewrite emitted_on_frame. unfold callback_outcome.
  destruct (decode msg) as [e|a] eqn:Hdec.
  { exists []. auto. }
  apply decode_consistent in Hdec as [Hch _].
  destruct (frame_outcome_events (self s) (now s) a) as (dr & tl & -> & Hdr & Htl).
  pose proof (inference_calls_are_predicts (self s) (inr a)) as Hic.
  exists (inference_calls (self s) (inr a) ++ dr).
  rewrite !filter_app.
  rewrite (filter_none_of is_display is_predict _
             ltac:(intros []; simpl; congruence) Hic).
  rewrite (filter_none_of is_publication is_predict _
             ltac:(intros []; simpl; congruence) Hic).
  rewrite (filter_none_of is_display is_drawing _
             ltac:(intros []; simpl; congruence) Hdr).
  rewrite (filter_none_of is_publication is_drawing _
             ltac:(intros []; simpl; congruence) Hdr).
  split; [reflexivity|]. split; [reflexivity|].
  destruct Htl as [[-> _]|(rs1 & rs2 & f1 & f2 & _ & _ & Ha1 & Ha2 & _ & ->)].
  { left. rewrite app_nil_r. reflexivity. }
  right. eexists. split; [|rewrite <- app_assoc; f_equal; f_equal; f_equal;
                           apply (display_shown _ (now s))].
  - reflexivity.
  - apply annotate_keeps in Ha1 as [Hs1 _]. apply annotate_keeps in Ha2 as [Hs2 _].
    rewrite Hs2, Hs1. simpl. destruct (shape a) as [[h w] c]. simpl in *.
    subst c. reflexivity.
Qed.

(** ** Truncation and the geometry of a box *)

Lemma Qtruncate_inject_Z (z : Z) : Qtruncate (inject_Z z) = z.
Proof. unfold Qtruncate, inject_Z. simpl. apply Z.quot_1_r. Qed.

Lemma Qtruncate_mono (x y : Q) :
  (x <= y)%Q -> (Qtruncate x <= Qtruncate y)%Z.
Proof.
  intros Hxy.
  destruct (Qtruncate_truncated x) as [Hxp Hxn].
  destruct (Qtruncate_truncated y) as [Hyp Hyn].
  destruct (Qlt_le_dec y 0) as [Hy|Hy].
  - assert (Hx : (x <= 0)%Q)
      by (eapply Qle_trans; [exact Hxy | apply Qlt_le_weak, Hy]).
    destruct (Hxn Hx) as [H1 _].
    destruct (Hyn (Qlt_le_weak _ _ Hy)) as [_ H2].
    assert (H : (inject_Z (Qtruncate x) - 1 < inject_Z (Qtruncate y))%Q).
    { eapply Qlt_le_trans; [exact H1|]. apply (Qle_trans _ y); assumption. }
    unfold Qlt, Qminus, Qplus, Qopp, inject_Z in H. simpl in H. lia.
  - destruct (Hyp Hy) as [_ H2].
    destruct (Qlt_le_dec x 0) as [Hx|Hx].
    + destruct (Hxn (Qlt_le_weak _ _ Hx)) as [H1 _].
      assert (H0 : (inject_Z (Qtruncate x) - 1 < 0)%Q)
        by (apply (Qlt_trans _ x); assumption).
      assert (H3 : (0 < inject_Z (Qtruncate y) + 1)%Q)
        by (apply (Qle_lt_trans _ y); assumption).
      unfold Qlt, Qminus, Qplus, Qopp, inject_Z in H0, H3.
      simpl in H0, H3. lia.
    + destruct (Hxp Hx) as [H1 _].
      assert (H : (inject_Z (Qtruncate x) < inject_Z (Qtruncate y) + 1)%Q).
      { eapply Qle_lt_trans; [exact H1|]. apply (Qle_lt_trans _ y); assumption. }
      unfold Qlt, Qplus, inject_Z in H. simpl in H. lia.
Qed.

(** X14. Dropping the fractions keeps the geometry of a box. Whenever
    a box is built: x1 <= x2 gives [xmin <= xmax] and y1 <= y2 gives
    [ymin <= ymax], whatever the signs; a corner that is not negative
    stays so; and a corner within [width] or [height] stays within
    it. *)
Theorem X14_truncation_keeps_box_geometry
    (r0 : Results) (result : Box) (boundingBox : BoundingBox) (width height : N) :
  make_BoundingBox r0 result = inr boundingBox ->
  (((xyxy result).1.1.1 <= (xyxy result).1.2)%Q ->
   (xmin boundingBox <= xmax boundingBox)%Z) /\
  (((xyxy result).1.1.2 <= (xyxy result).2)%Q ->
   (ymin boundingBox <= ymax boundingBox)%Z) /\
  ((0 <= (xyxy result).1.1.1)%Q -> (0 <= xmin boundingBox)%Z) /\
  ((0 <= (xyxy result).1.1.2)%Q -> (0 <= ymin boundingBox)%Z) /\
  (((xyxy result).1.2 <= inject_Z (Z.of_N width))%Q ->
   (xmax boundingBox <= Z.of_N width)%Z) /\
  (((xyxy result).2 <= inject_Z (Z.of_N height))%Q ->
   (ymax boundingBox <= Z.of_N height)%Z).
Proof.
  intros Hm. apply make_BoundingBox_inr in Hm as (name & _ & -> & _).
  unfold box_of. simpl.
  repeat split; intros H.
  - apply Qtruncate_mono, H.
  - apply Qtruncate_mono, H.
  - rewrite <- (Qtruncate_inject_Z 0). apply Qtruncate_mono, H.
  - rewrite <- (Qtruncate_inject_Z 0). apply Qtruncate_mono, H.
  - rewrite <- (Qtruncate_inject_Z (Z.of_N width)). apply Qtruncate_mono, H.
  - rewrite <- (Qtruncate_inject_Z (Z.of_N height)). apply Qtruncate_mono, H.
Qed.

Lemma X14_truncation_keeps_box_geometry_witness :
  let result := {| xyxy := (-27 # 10, -27 # 10, 19 # 10, 16 # 10)%Q;
                   cls := 0; conf := 91 # 100 |} in
  let boundingBox := {| probability := 91 # 100; xmin := -2; ymin := -2;
                        xmax := 1; ymax := 1; Class := "person" |} in
  make_BoundingBox Sample.person_result result = inr boundingBox /\
  (xmin boundingBox <= xmax boundingBox)%Z /\
  (ymin boundingBox <= ymax boundingBox)%Z /\
  (xmax boundingBox <= Z.of_N 2)%Z.
Proof.
  intros result boundingBox.
  pose proof (X14_truncation_keeps_box_geometry Sample.person_result result
                boundingBox 2 2 eq_refl) as (H1 & H2 & _ & _ & H5 & _).
  split; [reflexivity|]. split; [|split].
  - apply H1. vm_compute. discriminate.
  - apply H2. vm_compute. discriminate.
  - apply H5. vm_compute. discriminate.
Defined.

(** ** The held frame and the run as a whole *)

(** X15. After a callback whose message decodes, the frame the node
    holds is the decoded frame itself, with its own bytes, however the
    pass ended: the rectangles and labels went to the copy, never to
    [self.color_image]. *)
Theorem X15_held_frame_is_decoded_frame `{E : Env}
    (msg : inbound) (s : State) (a : ndarray) :
  decode msg = inr a ->
  exists l,
    color_image (self (on_frame msg s).2) = Some l /\
    heap (on_frame msg s).2 !! l = Some a.
Proof.
  intros Hdec.
  destruct (on_frame_run msg s) as (s' & -> & _ & _ & _ & _ & Hheld).
  apply Hheld, Hdec.
Qed.

Lemma X15_held_frame_is_decoded_frame_witness :
  let E := Sample.script Sample.one_person Sample.no_detections in
  let msg := Raw (Sample.raw_image 2 2
                    ["000"; "000"; "255"; "000"; "255"; "000";
                     "255"; "000"; "000"; "255"; "255"; "255"]%byte) in
  exists l,
    color_image (self (on_frame msg (initial_state Sample.quiet)).2) = Some l /\
    heap (on_frame msg (initial_state Sample.quiet)).2 !! l = Some Sample.rgb_2x2.
Proof.
  intros E msg.
  exact (X15_held_frame_is_decoded_frame (E := E) msg
           (initial_state Sample.quiet) Sample.rgb_2x2 eq_refl).
Defined.

Lemma spin_events_app `{E : Env} o l1 l2 :
  spin_events o (l1 ++ l2) = spin_events o l1 ++ spin_events o l2.
Proof.
  induction l1 as [|[t msg] l1 IH]; simpl; [reflexivity|].
  rewrite IH, <- !app_assoc. reflexivity.
Qed.

(** X16. A run is the sum of its messages: what the node emits over a
    sequence of deliveries is what it emits over the first part followed
    by what it would emit over the rest from the start, so no message
    changes how a later one is handled. *)
Theorem X16_run_is_concatenation `{E : Env}
    (l1 l2 : list (N * inbound)) (s : State) :
  emitted (spin on_frame (l1 ++ l2)) s =
  emitted (spin on_frame l1) s ++ emitted (spin on_frame l2) s.
Proof. rewrite !emitted_spin. apply spin_events_app. Qed.
